(** * Video-translator backend: the job lifecycle of [backend/app.py]

    A shallow embedding of the Flask application: the two SQLAlchemy tables
    are finite maps keyed by primary key, every route handler is a function
    in a small state / log / exception monad, and the claims of the
    specification are theorems about runs of those handlers. *)

From stdpp Require Import gmap strings list fin_maps sorting.

Local Open Scope string_scope.
Local Open Scope list_scope.
Local Open Scope Z_scope.

(** ** JSON values, as [jsonify] emits them and [request.get_json] reads them *)

#[local] Unset Elimination Schemes.
Inductive json :=
| JNull
| JBool (b : bool)
| JInt (z : Z)
| JStr (s : string)
| JList (items : list json)
| JObj (members : list (string * json)).
#[local] Set Elimination Schemes.

(** A key of a request body: absent, present with JSON [null], or present
    with a value.  ['k' not in data] only tells [Missing] from the other two. *)
Inductive field (A : Type) :=
| Missing
| Null
| Value (a : A).
Arguments Missing {A}.
Arguments Null {A}.
Arguments Value {A} a.

Definition present {A} (f : field A) : bool :=
  match f with Missing => false | _ => true end.

(** [data['k']] for a key that is present: Python [None] or the value. *)
Definition field_get {A} (f : field A) : option A :=
  match f with Value a => Some a | _ => None end.

Definition json_of_opt_string (o : option string) : json :=
  match o with Some s => JStr s | None => JNull end.

(** ** Database models *)

(** The primary key [id] of a row is its key in the table. *)
Module User.
Record t := mk {
  email : string;
  created_at : string
}.

Definition to_dict (id : Z) (self : t) : json :=
  JObj [("id", JInt id);
        ("email", JStr (email self));
        ("created_at", JStr (created_at self))].
End User.

Module TranslationJob.
Record t := mk {
  user_id : Z;
  original_filename : string;
  target_language : option string;
  status : string;
  created_at : string
}.

Definition to_dict (id : Z) (self : t) : json :=
  JObj [("id", JInt id);
        ("user_id", JInt (user_id self));
        ("original_filename", JStr (original_filename self));
        ("target_language", json_of_opt_string (target_language self));
        ("status", JStr (status self));
        ("created_at", JStr (created_at self))].

Definition set_status (v : string) (self : t) : t :=
  mk (user_id self) (original_filename self) (target_language self) v
     (created_at self).

Definition set_target_language (v : option string) (self : t) : t :=
  mk (user_id self) (original_filename self) v (status self)
     (created_at self).
End TranslationJob.

Record Database := mkDatabase {
  users : gmap Z User.t;
  jobs : gmap Z TranslationJob.t
}.

(** [db.create_all()] on a new file. *)
Definition empty_db : Database := mkDatabase ∅ ∅.

(** SQLite gives an INTEGER PRIMARY KEY one more than the largest key in the
    table, 1 in an empty table. *)
Definition max_key {A} (m : gmap Z A) : Z :=
  foldr Z.max 0 (map fst (map_to_list m)).

Definition next_id {A} (m : gmap Z A) : Z := 1 + max_key m.

(** ** Configuration *)

Definition UPLOAD_FOLDER : string := "uploads".

Definition supported_languages : list string :=
  ["es"; "fr"; "de"; "it"; "pt"; "ru"; "ja"; "ko"; "zh"; "hi"].

Record Config := mkConfig {
  (** [os.getenv('HEYGEN_API_KEY')] *)
  HEYGEN_API_KEY : option string
}.

(** Python truthiness of an optional string: [None] and [''] are false. *)
Definition truthy (o : option string) : bool :=
  match o with
  | None => false
  | Some s => negb (bool_decide (s = ""))
  end.

(** [os.path.join(a, b)] on POSIX: an absolute [b] discards [a]. *)
Definition path_join (a b : string) : string :=
  if String.prefix "/" b then b else a +:+ "/" +:+ b.

(** ** Effects *)

(** What a handler does besides computing its response: writes to the
    session, commits, and the one external call of the application,
    [file.save].  [EvFailureReason] is the diagnostic record of the
    provider's outcome report, which is modelled from the spec below; no
    handler of [app.py] emits it, and no event stands for a call to the
    provider because the application makes none. *)
Inductive event :=
| EvFileSave (path : string)
| EvAddUser (id : Z)
| EvAddJob (id : Z)
| EvSetStatus (job : Z) (old new : string)
| EvSetTargetLanguage (job : Z) (old new : option string)
| EvCommit
| EvFailureReason (job : Z) (reason : string).

Inductive result (A : Type) :=
| Ok (a : A)
| Raised (msg : string).
Arguments Ok {A} a.
Arguments Raised {A} msg.

Definition M (A : Type) : Type := Database → result A * Database * list event.

Definition ret {A} (a : A) : M A := λ db, (Ok a, db, []).

Definition bind {A B} (m : M A) (k : A → M B) : M B :=
  λ db,
    match m db with
    | (Ok a, db1, l1) =>
        match k a db1 with (r, db2, l2) => (r, db2, l1 ++ l2) end
    | (Raised e, db1, l1) => (Raised e, db1, l1)
    end.

Definition raise {A} (msg : string) : M A := λ db, (Raised msg, db, []).

(** [try: m except Exception as e: h(str(e))] *)
Definition try_except {A} (m : M A) (h : string → M A) : M A :=
  λ db,
    match m db with
    | (Ok a, db1, l1) => (Ok a, db1, l1)
    | (Raised e, db1, l1) =>
        match h e db1 with (r, db2, l2) => (r, db2, l1 ++ l2) end
    end.

(** The handlers are written with stdpp's monad notations [x ← m; k] and
    [m;; k]. *)
#[global] Instance M_ret : MRet M := @ret.
#[global] Instance M_bind : MBind M := λ A B k m, bind m k.
#[global] Instance M_fmap : FMap M := λ A B f m, bind m (λ a, ret (f a)).

(** Primitive actions. *)
Definition get_db : M Database := λ db, (Ok db, db, []).
Definition put_db (db' : Database) : M unit := λ _, (Ok tt, db', []).
Definition emit (e : event) : M unit := λ db, (Ok tt, db, [e]).


(** *** The ORM session

    The state of a handler is the session's view of the tables: an
    attribute write on a loaded row is visible to every later read of the
    same request.  [db.session.commit()] makes the writes durable, or
    raises when the database refuses it (a value that cannot be bound, a
    locked file); the environment of the request says which.  When an
    exception leaves a view the session is removed with the request and
    what was written is rolled back (see [view]).  The commit of
    [start_translation] is given its fault by the request; those of
    [create_user] and [upload_file] are taken to succeed, so what is proved
    of these two routes is proved for a database that accepts the insert. *)

Definition commit (fault : option string) : M unit :=
  match fault with
  | Some msg => raise msg
  | None => emit EvCommit
  end.

(** A session whose commit has failed refuses every further commit until
    [rollback()] is called; no handler of the application calls it. *)
Definition pending_rollback (fault : option string) : option string :=
  (λ _, "PendingRollbackError: This Session's transaction has been rolled back due to a previous exception during flush.")
    <$> fault.

(** The integers SQLite can hold: binding any other Python integer raises
    OverflowError. *)
Definition sqlite_integer (i : Z) : bool :=
  (- 2 ^ 63 <=? i) && (i <? 2 ^ 63).

Definition overflow_error : string :=
  "OverflowError: Python int too large to convert to SQLite INTEGER".

(** [User.query.get(id)], called with the text of a form field, which is
    bound as text; a [None] key finds nothing. *)
Definition user_query_get (id : option Z) : M (option User.t) :=
  db ← get_db; mret (id ≫= λ i, users db !! i).

(** [TranslationJob.query.get(id)], called with an integer: a [None] key
    finds nothing, and an integer outside SQLite's range raises.  No row is
    stored under such a key, so the range is tested where the lookup finds
    nothing. *)
Definition job_query_get (id : option Z) : M (option (Z * TranslationJob.t)) :=
  db ← get_db;
  match id with
  | None => mret None
  | Some i =>
      match jobs db !! i with
      | Some j => mret (Some (i, j))
      | None =>
          if sqlite_integer i then mret None
          else raise overflow_error
      end
  end.

(** A row of the job table by its key, without the ORM. *)
Definition job_lookup (id : Z) : M (option (Z * TranslationJob.t)) :=
  db ← get_db; mret ((λ j, (id, j)) <$> jobs db !! id).

(** [Model.query.all()]: the rows in the order of their primary keys. *)
Definition key_le {A} (p q : Z * A) : Prop := p.1 ≤ q.1.

#[global] Instance key_le_dec {A} (p q : Z * A) : Decision (key_le p q) :=
  ltac:(unfold key_le; apply _).

Definition query_all {A} (m : gmap Z A) : list (Z * A) :=
  merge_sort key_le (map_to_list m).

(** [User.query.filter_by(email=e).first()]; no stored email is NULL, so a
    [None] argument matches no row. *)
Definition find_by_email (e : option string) (m : gmap Z User.t)
  : option (Z * User.t) :=
  match e with
  | None => None
  | Some e => List.find (λ p, bool_decide (User.email p.2 = e)) (map_to_list m)
  end.

Definition user_query_filter_by_email (e : option string)
  : M (option (Z * User.t)) :=
  db ← get_db; mret (find_by_email e (users db)).

(** [db.session.add(row)]: the row gets the next primary key. *)
Definition session_add_user (u : User.t) : M Z :=
  db ← get_db;
  let id := next_id (users db) in
  put_db (mkDatabase (<[id := u]> (users db)) (jobs db));;
  emit (EvAddUser id);;
  mret id.

Definition session_add_job (j : TranslationJob.t) : M Z :=
  db ← get_db;
  let id := next_id (jobs db) in
  put_db (mkDatabase (users db) (<[id := j]> (jobs db)));;
  emit (EvAddJob id);;
  mret id.

(** [job.status = v] and [job.target_language = v] on the loaded row [id]. *)
Definition job_set_status (id : Z) (v : string) : M unit :=
  db ← get_db;
  match jobs db !! id with
  | Some job =>
      put_db (mkDatabase (users db)
                (<[id := TranslationJob.set_status v job]> (jobs db)));;
      emit (EvSetStatus id (TranslationJob.status job) v)
  | None => mret tt
  end.

Definition job_set_target_language (id : Z) (v : option string) : M unit :=
  db ← get_db;
  match jobs db !! id with
  | Some job =>
      put_db (mkDatabase (users db)
                (<[id := TranslationJob.set_target_language v job]> (jobs db)));;
      emit (EvSetTargetLanguage id (TranslationJob.target_language job) v)
  | None => mret tt
  end.

(** [job.to_dict()] on the loaded row [id], read when the call is made. *)
Definition job_to_dict (id : Z) : M json :=
  db ← get_db;
  mret (from_option (TranslationJob.to_dict id) JNull (jobs db !! id)).

(** ** Routes *)

(** [return jsonify({...}), code] *)
Definition response : Type := json * Z.

Definition jsonify (members : list (string * json)) : json := JObj members.

Definition json_bool_of_key (cfg : Config) : json :=
  JBool (truthy (HEYGEN_API_KEY cfg)).

Definition home (cfg : Config) : M response :=
  mret (jsonify [
    ("message", JStr "Video Translator API with HeyGen Integration!");
    ("status", JStr "working");
    ("heygen_configured", json_bool_of_key cfg);
    ("endpoints", JList [
      JStr "GET / - This welcome message";
      JStr "GET /api/test - Test endpoint";
      JStr "GET /api/users - List all users";
      JStr "POST /api/users - Create new user";
      JStr "GET /api/jobs - List all jobs";
      JStr "POST /api/upload - Upload video file";
      JStr "POST /api/translate - Start video translation";
      JStr "GET /api/jobs/<id> - Check job status"])], 200).

Definition test (cfg : Config) (now : string) : M response :=
  mret (jsonify [
    ("status", JStr "success");
    ("message", JStr "HeyGen video translation API is ready!");
    ("heygen_api_configured", json_bool_of_key cfg);
    ("supported_languages", JList (JStr <$> supported_languages));
    ("timestamp", JStr now)], 200).

Definition get_users : M response :=
  db ← get_db;
  let users := query_all (users db) in
  mret (jsonify [
    ("users", JList ((λ p, User.to_dict p.1 p.2) <$> users));
    ("count", JInt (Z.of_nat (length users)))], 200).

(** [data] is what [request.get_json()] returns for [POST /api/users]:
    [None] for the JSON body [null], otherwise, for a JSON object, the state
    of its ['email'] key.  A body that is not JSON at all never gets here:
    [get_json()] itself answers it (415, or 400 when it is malformed), and
    such requests, like bodies that are JSON arrays, strings or numbers, are
    outside [request]. *)
Definition create_user (data : option (field string)) (now : string)
  : M response :=
  match data with
  | None | Some Missing =>
      mret (jsonify [("error", JStr "Email is required")], 400)
  | Some f =>
      let email := field_get f in
      existing_user ← user_query_filter_by_email email;
      if existing_user is Some _ then
        mret (jsonify [("error", JStr "User already exists")], 400)
      else
        match email with
        | None =>
            (* [nullable=False]: the INSERT is refused, nothing is stored *)
            raise "IntegrityError: NOT NULL constraint failed: user.email"
        | Some e =>
            id ← session_add_user (User.mk e now);
            commit None;;
            mret (jsonify [
              ("message", JStr "User created successfully");
              ("user", User.to_dict id (User.mk e now))], 201)
        end
  end.

Definition get_jobs : M response :=
  db ← get_db;
  let jobs := query_all (jobs db) in
  mret (jsonify [
    ("jobs", JList ((λ p, TranslationJob.to_dict p.1 p.2) <$> jobs));
    ("count", JInt (Z.of_nat (length jobs)))], 200).

Definition get_job_status (job_id : Z) : M response :=
  job ← job_query_get (Some job_id);
  match job with
  | None => mret (jsonify [("error", JStr "Job not found")], 404)
  | Some (id, job) =>
      mret (jsonify [("job", TranslationJob.to_dict id job)], 200)
  end.

(** [file.save(file_path)]: the environment says whether it raises. *)
Definition file_save (file_path : string) (fault : option string) : M unit :=
  match fault with
  | Some msg => raise msg
  | None => emit (EvFileSave file_path)
  end.

Record upload_form := mkUpload {
  (** [request.form]: the ['user_id'] key, read as a primary key *)
  form_user_id : option Z;
  (** [request.files]: the filename of the ['file'] part *)
  form_file : option string;
  (** whether [file.save] raises, and with which message *)
  save_fault : option string
}.

Definition upload_file (req : upload_form) (now : string) : M response :=
  match form_user_id req with
  | None => mret (jsonify [("error", JStr "user_id is required")], 400)
  | Some user_id =>
      user ← user_query_get (Some user_id);
      if user is None then
        mret (jsonify [("error", JStr "User not found")], 404)
      else
        match form_file req with
        | None => mret (jsonify [("error", JStr "No file provided")], 400)
        | Some filename =>
            if bool_decide (filename = "") then
              mret (jsonify [("error", JStr "No file selected")], 400)
            else
              try_except
                (let file_path := path_join UPLOAD_FOLDER filename in
                 file_save file_path (save_fault req);;
                 id ← session_add_job
                        (TranslationJob.mk user_id filename None "uploaded" now);
                 commit None;;
                 job ← job_to_dict id;
                 mret (jsonify [
                   ("message", JStr "File uploaded successfully!");
                   ("job", job);
                   ("filename", JStr filename);
                   ("next_step", JStr "Use /api/translate to start translation")],
                   201))
                (λ e, mret (jsonify [
                   ("error", JStr "Upload failed");
                   ("details", JStr e)], 500))
        end
  end.

(** The JSON object in the body of [POST /api/translate]. *)
Record translate_data := mkTranslate {
  job_id : field Z;
  target_language : field string
}.

(** [data] is what [request.get_json()] returns ([None] for the body
    [null], see [create_user]); [fault] says whether the commit of the
    guarded block raises, and with which message.  Nothing else in that
    block can raise: where the provider would be called the source has only
    a comment. *)
Definition start_translation (cfg : Config) (data : option translate_data)
    (fault : option string) : M response :=
  if negb (truthy (HEYGEN_API_KEY cfg)) then
    mret (jsonify [
      ("error", JStr "HeyGen API not configured");
      ("message", JStr "Please set HEYGEN_API_KEY environment variable")], 500)
  else
    match data with
    | Some data =>
        if negb (present (job_id data)) || negb (present (target_language data))
        then
          mret (jsonify [
            ("error", JStr "job_id and target_language are required");
            ("supported_languages", JList (JStr <$> supported_languages))], 400)
        else
          let job_id := field_get (job_id data) in
          let target_language := field_get (target_language data) in
          job ← job_query_get job_id;
          match job with
          | None => mret (jsonify [("error", JStr "Job not found")], 404)
          | Some (id, job) =>
              if negb (bool_decide (TranslationJob.status job = "uploaded")) then
                mret (jsonify [
                  ("error", JStr ("Job status is " +:+ TranslationJob.status job
                                  +:+ ", expected uploaded"))], 400)
              else
                try_except
                  (job_set_status id "processing";;
                   job_set_target_language id target_language;;
                   commit fault;;
                   job ← job_to_dict id;
                   mret (jsonify [
                     ("message", JStr "Translation started successfully!");
                     ("job", job);
                     ("status", JStr "processing");
                     ("target_language", json_of_opt_string target_language);
                     ("note", JStr "Currently simulated - real HeyGen integration ready for your API key")],
                     200))
                  (λ e,
                   job_set_status id "failed";;
                   commit (pending_rollback fault);;
                   job ← job_to_dict id;
                   mret (jsonify [
                     ("error", JStr "Translation failed to start");
                     ("details", JStr e);
                     ("job", job)], 500))
          end
    | None =>
        mret (jsonify [
          ("error", JStr "job_id and target_language are required");
          ("supported_languages", JList (JStr <$> supported_languages))], 400)
    end.

(** *** The two halves of [start_translation]

    What the handler does up to its test of the status (lines 186-211), and
    what it does from the first write on (lines 213-238).  Between the two
    the handler holds the row as its session loaded it. *)

Definition start_translation_read (cfg : Config) (data : option translate_data)
  : M (response + Z * TranslationJob.t * option string) :=
  if negb (truthy (HEYGEN_API_KEY cfg)) then
    mret (inl (jsonify [
      ("error", JStr "HeyGen API not configured");
      ("message", JStr "Please set HEYGEN_API_KEY environment variable")], 500))
  else
    match data with
    | Some data =>
        if negb (present (job_id data)) || negb (present (target_language data))
        then
          mret (inl (jsonify [
            ("error", JStr "job_id and target_language are required");
            ("supported_languages", JList (JStr <$> supported_languages))], 400))
        else
          let job_id := field_get (job_id data) in
          let target_language := field_get (target_language data) in
          job ← job_query_get job_id;
          match job with
          | None => mret (inl (jsonify [("error", JStr "Job not found")], 404))
          | Some (id, job) =>
              if negb (bool_decide (TranslationJob.status job = "uploaded")) then
                mret (inl (jsonify [
                  ("error", JStr ("Job status is " +:+ TranslationJob.status job
                                  +:+ ", expected uploaded"))], 400))
              else mret (inr (id, job, target_language))
          end
    | None =>
        mret (inl (jsonify [
          ("error", JStr "job_id and target_language are required");
          ("supported_languages", JList (JStr <$> supported_languages))], 400))
    end.

(** [job.status = v] and [job.target_language = v] on the row as the
    session loaded it: the write reaches the table, the old value is the
    loaded one. *)
Definition loaded_set_status (id : Z) (job : TranslationJob.t) (v : string)
  : M TranslationJob.t :=
  db ← get_db;
  put_db (mkDatabase (users db)
            (<[id := TranslationJob.set_status v job]> (jobs db)));;
  emit (EvSetStatus id (TranslationJob.status job) v);;
  mret (TranslationJob.set_status v job).

Definition loaded_set_target_language (id : Z) (job : TranslationJob.t)
    (v : option string) : M TranslationJob.t :=
  db ← get_db;
  put_db (mkDatabase (users db)
            (<[id := TranslationJob.set_target_language v job]> (jobs db)));;
  emit (EvSetTargetLanguage id (TranslationJob.target_language job) v);;
  mret (TranslationJob.set_target_language v job).

Definition start_translation_write (id : Z) (job : TranslationJob.t)
    (target_language : option string) (fault : option string) : M response :=
  try_except
    (job ← loaded_set_status id job "processing";
     job ← loaded_set_target_language id job target_language;
     commit fault;;
     mret (jsonify [
       ("message", JStr "Translation started successfully!");
       ("job", TranslationJob.to_dict id job);
       ("status", JStr "processing");
       ("target_language", json_of_opt_string target_language);
       ("note", JStr "Currently simulated - real HeyGen integration ready for your API key")],
       200))
    (λ e,
     job ← loaded_set_status id
             (TranslationJob.set_target_language target_language
                (TranslationJob.set_status "processing" job)) "failed";
     commit (pending_rollback fault);;
     mret (jsonify [
       ("error", JStr "Translation failed to start");
       ("details", JStr e);
       ("job", TranslationJob.to_dict id job)], 500)).

Definition start_translation_finish
    (r : response + Z * TranslationJob.t * option string)
    (fault : option string) : M response :=
  match r with
  | inl answer => mret answer
  | inr (id, job, target_language) =>
      start_translation_write id job target_language fault
  end.

(** One request served without interruption. *)
Definition start_translation_in_two (cfg : Config)
    (data : option translate_data) (fault : option string) : M response :=
  r ← start_translation_read cfg data;
  start_translation_finish r fault.

(** Two requests served by two threads, each with a session of its own,
    when both have passed the test of the status before either writes. *)
Definition start_translation_overlapping (cfg : Config)
    (data1 data2 : option translate_data) (fault1 fault2 : option string)
  : M (response * response) :=
  r1 ← start_translation_read cfg data1;
  r2 ← start_translation_read cfg data2;
  answer1 ← start_translation_finish r1 fault1;
  answer2 ← start_translation_finish r2 fault2;
  mret (answer1, answer2).

(** ** The provider's outcome report *)

Module Provider.

(** Modelled from the spec: the outcome the provider reports,
    [Completed | Failed(reason)]. *)
Inductive outcome :=
| Completed
| Failed (reason : string).

(** Modelled from the spec: the failure kinds of the operation. *)
Inductive error :=
| JobNotFound
| InvalidTransition (actual : string).

Definition status_of (o : outcome) : string :=
  match o with Completed => "completed" | Failed _ => "failed" end.

Definition terminal (s : string) : bool :=
  bool_decide (s = "completed") || bool_decide (s = "failed").

(** Modelled from the spec: ApplyProviderOutcome (section 4.2, operation 3),
    which [app.py] does not implement.  The job must exist; in status
    [processing] its status becomes [completed] or [failed], the latter
    recording the reason; on a job already terminal the delivery has no
    effect and returns the job; any other status is an illegal transition. *)
Definition apply_provider_outcome (job_id : Z) (o : outcome)
  : M (error + Z * TranslationJob.t) :=
  job ← job_lookup job_id;
  match job with
  | None => mret (inl JobNotFound)
  | Some (id, job) =>
      if bool_decide (TranslationJob.status job = "processing") then
        job_set_status id (status_of o);;
        (if o is Failed reason then emit (EvFailureReason id reason)
         else mret tt);;
        commit None;;
        mret (inr (id, TranslationJob.set_status (status_of o) job))
      else if terminal (TranslationJob.status job) then
        mret (inr (id, job))
      else
        mret (inl (InvalidTransition (TranslationJob.status job)))
  end.

End Provider.

(** ** Requests and runs *)

(** The requests the model covers.  A body that [get_json()] reads is the
    JSON value [null] or a JSON object whose "email" and "target_language"
    are strings or null and whose "job_id" is an integer or null; the
    user_id of an upload form is the text of an integer; [GET_job] stands
    for the path /api/jobs/<job_id> written with that integer.  The last
    request is the provider's outcome report, which is not a route. *)
Inductive request :=
| GET_home
| GET_test (now : string)
| GET_users
| POST_users (data : option (field string)) (now : string)
| GET_jobs
| GET_job (job_id : Z)
| POST_upload (form : upload_form) (now : string)
| POST_translate (data : option translate_data) (fault : option string)
| ProviderOutcome (job_id : Z) (o : Provider.outcome).

Inductive reply :=
| Http (r : response)
| Core (r : Provider.error + Z * TranslationJob.t).

Definition internal_server_error : response :=
  (JStr "Internal Server Error", 500).

(** Flask's answer to a path that matches no rule. *)
Definition not_found_page : response := (JStr "Not Found", 404).

(** Flask answers an exception that leaves a view with a 500 page.  The
    session is removed with the request, so what the view wrote without
    committing is rolled back, and with it its record in the log; no view
    of the application raises after a commit that succeeded. *)
Definition view (m : M response) : M reply :=
  λ db,
    match m db with
    | (Ok r, db1, l1) => (Ok (Http r), db1, l1)
    | (Raised _, _, _) => (Ok (Http internal_server_error), db, [])
    end.

Definition handle (cfg : Config) (req : request) : M reply :=
  match req with
  | GET_home => view (home cfg)
  | GET_test now => view (test cfg now)
  | GET_users => view get_users
  | POST_users data now => view (create_user data now)
  | GET_jobs => view get_jobs
  | GET_job job_id =>
      (* the rule /api/jobs/<int:job_id> matches unsigned digits only *)
      if bool_decide (0 ≤ job_id) then view (get_job_status job_id)
      else mret (Http not_found_page)
  | POST_upload form now => view (upload_file form now)
  | POST_translate data fault => view (start_translation cfg data fault)
  | ProviderOutcome job_id o => Core <$> Provider.apply_provider_outcome job_id o
  end.

(** The server answers the requests one after the other. *)
Fixpoint run (cfg : Config) (reqs : list request) (db : Database)
  : list reply * Database * list event :=
  match reqs with
  | [] => ([], db, [])
  | req :: reqs =>
      match handle cfg req db with
      | (r, db1, l1) =>
          match run cfg reqs db1 with
          | (rs, db2, l2) =>
              (match r with Ok a => a | Raised _ => Http internal_server_error end
                 :: rs, db2, l1 ++ l2)
          end
      end
  end.

Definition final_db (cfg : Config) (reqs : list request) (db : Database)
  : Database := (run cfg reqs db).1.2.

Definition log_of (cfg : Config) (reqs : list request) (db : Database)
  : list event := (run cfg reqs db).2.

(** ** The lifecycle graph *)

Definition valid_statuses : list string :=
  ["uploaded"; "processing"; "completed"; "failed"].

Definition transitions : list (string * string) :=
  [("uploaded", "processing");
   ("processing", "completed");
   ("processing", "failed")].

Definition edge (old new : string) : Prop := (old, new) ∈ transitions.

#[global] Instance edge_dec old new : Decision (edge old new) :=
  ltac:(unfold edge; apply _).

Definition terminal_status (s : string) : Prop :=
  s = "completed" ∨ s = "failed".

(** Replaying a log on a table of statuses: a new job starts in [uploaded]
    under a key that is free, and a status write must start from the status
    the job has and follow an edge of the graph.  [None] when the log does
    anything else to a status. *)
Fixpoint replay (l : list event) (m : gmap Z string) : option (gmap Z string) :=
  match l with
  | [] => Some m
  | EvAddJob id :: l =>
      if m !! id is None then replay l (<[id := "uploaded"]> m) else None
  | EvSetStatus id old new :: l =>
      if bool_decide (m !! id = Some old ∧ edge old new)
      then replay l (<[id := new]> m)
      else None
  | _ :: l => replay l m
  end.

Definition statuses (db : Database) : gmap Z string :=
  TranslationJob.status <$> jobs db.

(** ** Responses and rows the statements name *)

(** The database with row [id] of the job table replaced. *)
Definition with_job (db : Database) (id : Z) (j : TranslationJob.t) : Database :=
  mkDatabase (users db) (<[id := j]> (jobs db)).

Definition started (tl : option string) (job : TranslationJob.t)
  : TranslationJob.t :=
  TranslationJob.set_target_language tl
    (TranslationJob.set_status "processing" job).

Definition new_job (user_id : Z) (filename now : string) : TranslationJob.t :=
  TranslationJob.mk user_id filename None "uploaded" now.

Definition not_configured : response :=
  (jsonify [
     ("error", JStr "HeyGen API not configured");
     ("message", JStr "Please set HEYGEN_API_KEY environment variable")], 500).

Definition job_not_found : response :=
  (jsonify [("error", JStr "Job not found")], 404).

Definition invalid_transition (actual : string) : response :=
  (jsonify [
     ("error", JStr ("Job status is " +:+ actual +:+ ", expected uploaded"))],
   400).

Definition translation_started (id : Z) (tl : option string)
    (job : TranslationJob.t) : response :=
  (jsonify [
     ("message", JStr "Translation started successfully!");
     ("job", TranslationJob.to_dict id job);
     ("status", JStr "processing");
     ("target_language", json_of_opt_string tl);
     ("note", JStr "Currently simulated - real HeyGen integration ready for your API key")],
   200).

Definition user_exists : response :=
  (jsonify [("error", JStr "User already exists")], 400).

Definition user_created (id : Z) (u : User.t) : response :=
  (jsonify [
     ("message", JStr "User created successfully");
     ("user", User.to_dict id u)], 201).

Definition user_not_found : response :=
  (jsonify [("error", JStr "User not found")], 404).

Definition file_uploaded (id : Z) (filename : string) (job : TranslationJob.t)
  : response :=
  (jsonify [
     ("message", JStr "File uploaded successfully!");
     ("job", TranslationJob.to_dict id job);
     ("filename", JStr filename);
     ("next_step", JStr "Use /api/translate to start translation")], 201).

Definition upload_failed (details : string) : response :=
  (jsonify [("error", JStr "Upload failed"); ("details", JStr details)], 500).

Definition outcome_events (id : Z) (o : Provider.outcome) : list event :=
  EvSetStatus id "processing" (Provider.status_of o)
  :: match o with
     | Provider.Failed reason => [EvFailureReason id reason; EvCommit]
     | Provider.Completed => [EvCommit]
     end.

(** ** The transitions of the database

    Whatever the request, a handler does one of five things to the tables. *)

Inductive db_step (db : Database) : list event → Database → Prop :=
| step_idle :
    db_step db [] db
| step_add_user e now :
    find_by_email (Some e) (users db) = None →
    db_step db [EvAddUser (next_id (users db)); EvCommit]
      (mkDatabase (<[next_id (users db) := User.mk e now]> (users db)) (jobs db))
| step_add_job uid filename now :
    is_Some (users db !! uid) →
    db_step db
      [EvFileSave (path_join UPLOAD_FOLDER filename);
       EvAddJob (next_id (jobs db)); EvCommit]
      (with_job db (next_id (jobs db)) (new_job uid filename now))
| step_start id job tl :
    jobs db !! id = Some job → TranslationJob.status job = "uploaded" →
    db_step db
      [EvSetStatus id "uploaded" "processing";
       EvSetTargetLanguage id (TranslationJob.target_language job) tl;
       EvCommit]
      (with_job db id (started tl job))
| step_outcome id job o :
    jobs db !! id = Some job → TranslationJob.status job = "processing" →
    db_step db (outcome_events id o)
      (with_job db id (TranslationJob.set_status (Provider.status_of o) job)).

Definition steps_of {A} (m : M A) (db : Database) : Prop :=
  match m db with
  | (Ok _, db', l) => db_step db l db'
  | (Raised _, _, _) => True
  end.

Inductive db_steps (db : Database) : list event → Database → Prop :=
| steps_nil : db_steps db [] db
| steps_cons l1 db1 l2 db2 :
    db_step db l1 db1 → db_steps db1 l2 db2 → db_steps db (l1 ++ l2) db2.

(** What one step does to one row of the job table. *)
Inductive job_moves (job : TranslationJob.t) : TranslationJob.t → Prop :=
| moves_start tl :
    TranslationJob.status job = "uploaded" →
    job_moves job (started tl job)
| moves_outcome o :
    TranslationJob.status job = "processing" →
    job_moves job (TranslationJob.set_status (Provider.status_of o) job).

(** The status writes of a log that take job [id] out of uploaded. *)
Definition leaves_uploaded (id : Z) (e : event) : bool :=
  match e with
  | EvSetStatus job old _ => (job =? id) && String.eqb old "uploaded"
  | _ => false
  end.

(** ** Invariants *)

Definition db_valid (db : Database) : Prop :=
  ∀ id job, jobs db !! id = Some job → TranslationJob.status job ∈ valid_statuses.

Definition uploaded_without_language (db : Database) : Prop :=
  ∀ id job,
    jobs db !! id = Some job →
    TranslationJob.status job = "uploaded" →
    TranslationJob.target_language job = None.

Definition unique_emails (m : gmap Z User.t) : Prop :=
  ∀ i j u v,
    m !! i = Some u → m !! j = Some v → User.email u = User.email v → i = j.

(** ** Sample configurations, databases and request sequences *)

Definition cfg_with_key : Config := mkConfig (Some "secret").
Definition cfg_without_key : Config := mkConfig None.

(** A database with one account and one freshly uploaded job. *)
Definition db_one_upload : Database :=
  mkDatabase {[1 := User.mk "ana@example.org" "t0"]}
             {[1 := new_job 1 "clip.mp4" "t1"]}.

(** A database whose only job is already being processed. *)
Definition db_processing : Database :=
  mkDatabase {[1 := User.mk "ana@example.org" "t0"]}
             {[1 := TranslationJob.mk 1 "clip.mp4" (Some "es") "processing" "t1"]}.

Definition requests_null_language : list request :=
  [POST_users (Some (Value "ana@example.org")) "t0";
   POST_upload (mkUpload (Some 1) (Some "clip.mp4") None) "t1";
   POST_translate (Some (mkTranslate (Value 1) Null)) None].

(** ** Further notions for the routes of the application *)

(** The requests [app.py] has a route for. *)
Definition is_route (req : request) : bool :=
  match req with ProviderOutcome _ _ => false | _ => true end.

(** The GET routes. *)
Definition is_get (req : request) : bool :=
  match req with
  | GET_home | GET_test _ | GET_users | GET_jobs | GET_job _ => true
  | _ => false
  end.

(** The status code of an HTTP answer. *)
Definition reply_code (r : result reply) : option Z :=
  match r with
  | Ok (Http (_, code)) => Some code
  | _ => None
  end.

Definition email_required : response :=
  (jsonify [("error", JStr "Email is required")], 400).

Definition user_id_required : response :=
  (jsonify [("error", JStr "user_id is required")], 400).

Definition no_file_provided : response :=
  (jsonify [("error", JStr "No file provided")], 400).

Definition no_file_selected : response :=
  (jsonify [("error", JStr "No file selected")], 400).

Definition keys_required : response :=
  (jsonify [
     ("error", JStr "job_id and target_language are required");
     ("supported_languages", JList (JStr <$> supported_languages))], 400).

(** What a route does to the tables: the steps of [db_step] that the
    handlers of [app.py] take. *)
Inductive route_step (db : Database) : Database → Prop :=
| route_idle :
    route_step db db
| route_add_user e now :
    find_by_email (Some e) (users db) = None →
    route_step db
      (mkDatabase (<[next_id (users db) := User.mk e now]> (users db)) (jobs db))
| route_add_job uid filename now :
    is_Some (users db !! uid) →
    route_step db (with_job db (next_id (jobs db)) (new_job uid filename now))
| route_start id job tl :
    jobs db !! id = Some job → TranslationJob.status job = "uploaded" →
    route_step db (with_job db id (started tl job)).

(** Every job belongs to an account that exists. *)
Definition jobs_have_owners (db : Database) : Prop :=
  ∀ id job,
    jobs db !! id = Some job →
    is_Some (users db !! TranslationJob.user_id job).

(** The keys of a table are 1, 2, ..., up to the number of its rows. *)
Definition consecutive_keys {A} (m : gmap Z A) : Prop :=
  ∀ k, is_Some (m !! k) ↔ 1 ≤ k ≤ Z.of_nat (size m).

Definition is_file_save (e : event) : bool :=
  match e with EvFileSave _ => true | _ => false end.



(** * Properties *)

(** ** Primary keys and lookups by email *)

Lemma foldr_max_ge (l : list Z) (k : Z) : k ∈ l → k ≤ foldr Z.max 0 l.
Proof.
  induction l as [|x l IH]; intros Hk.
  - by apply elem_of_nil in Hk.
  - apply elem_of_cons in Hk as [->|Hk]; simpl; [lia|].
    specialize (IH Hk). lia.
Qed.

Lemma max_key_ge {A} (m : gmap Z A) (k : Z) (v : A) :
  m !! k = Some v → k ≤ max_key m.
Proof.
  intros Hk. apply foldr_max_ge.
  apply list_elem_of_fmap. exists (k, v). split; [done|].
  by apply elem_of_map_to_list.
Qed.

Lemma next_id_fresh {A} (m : gmap Z A) : m !! next_id m = None.
Proof.
  destruct (m !! next_id m) as [v|] eqn:E; [|done].
  apply max_key_ge in E. unfold next_id in E. lia.
Qed.

Lemma find_by_email_Some (e : string) (m : gmap Z User.t) i u :
  find_by_email (Some e) m = Some (i, u) → m !! i = Some u ∧ User.email u = e.
Proof.
  intros H. apply find_some in H as [Hin He].
  apply list_elem_of_In, elem_of_map_to_list in Hin.
  by apply bool_decide_eq_true in He.
Qed.

Lemma find_by_email_None (e : string) (m : gmap Z User.t) :
  find_by_email (Some e) m = None ↔
  ∀ i u, m !! i = Some u → User.email u ≠ e.
Proof.
  split.
  - intros H i u Hi He.
    pose proof (find_none _ _ H (i, u)) as Hn. simpl in Hn.
    rewrite bool_decide_eq_false in Hn. apply Hn; [|done].
    by apply list_elem_of_In, elem_of_map_to_list.
  - intros H. destruct (find_by_email (Some e) m) as [[i u]|] eqn:E; [|done].
    apply find_by_email_Some in E as [Hi He]. by destruct (H i u Hi).
Qed.

(** ** What each handler computes *)

Ltac unfold_M :=
  cbv beta iota zeta delta
    [mbind mret fmap M_bind M_ret M_fmap bind ret raise try_except
     get_db put_db emit commit user_query_get job_query_get
     user_query_filter_by_email session_add_user session_add_job
     job_set_status job_set_target_language job_to_dict file_save
     job_lookup loaded_set_status loaded_set_target_language
     option_bind option_fmap option_map from_option].

Lemma start_translation_unconfigured cfg data fault db :
  truthy (HEYGEN_API_KEY cfg) = false →
  start_translation cfg data fault db = (Ok not_configured, db, []).
Proof. intros H. unfold start_translation. by rewrite H. Qed.

Lemma start_translation_not_found cfg d fault db :
  truthy (HEYGEN_API_KEY cfg) = true →
  present (job_id d) = true → present (target_language d) = true →
  match field_get (job_id d) with
  | None => True
  | Some i => jobs db !! i = None ∧ sqlite_integer i = true
  end →
  start_translation cfg (Some d) fault db = (Ok job_not_found, db, []).
Proof.
  intros Hk Hj Hl Hn. unfold start_translation. rewrite Hk, Hj, Hl. simpl.
  unfold_M. destruct (field_get (job_id d)) as [i|]; [|done].
  destruct Hn as [Hn Hr]. by rewrite Hn, Hr.
Qed.

Lemma start_translation_overflow cfg d fault db i :
  truthy (HEYGEN_API_KEY cfg) = true →
  field_get (job_id d) = Some i → present (target_language d) = true →
  jobs db !! i = None → sqlite_integer i = false →
  start_translation cfg (Some d) fault db = (Raised overflow_error, db, []).
Proof.
  intros Hk Hj Hl Hn Hr. unfold start_translation. rewrite Hk, Hl.
  destruct (job_id d) as [| |j]; simplify_eq/=.
  unfold_M. by rewrite Hn, Hr.
Qed.

Lemma start_translation_not_uploaded cfg d fault db id job :
  truthy (HEYGEN_API_KEY cfg) = true →
  field_get (job_id d) = Some id → present (target_language d) = true →
  jobs db !! id = Some job → TranslationJob.status job ≠ "uploaded" →
  start_translation cfg (Some d) fault db
  = (Ok (invalid_transition (TranslationJob.status job)), db, []).
Proof.
  intros Hk Hj Hl Hjob Hs. unfold start_translation. rewrite Hk, Hl.
  destruct (job_id d) as [| |i]; simplify_eq/=.
  unfold_M. rewrite Hjob. simpl. by rewrite bool_decide_eq_false_2.
Qed.

Lemma start_translation_uploaded cfg d fault db id job :
  truthy (HEYGEN_API_KEY cfg) = true →
  field_get (job_id d) = Some id → present (target_language d) = true →
  jobs db !! id = Some job → TranslationJob.status job = "uploaded" →
  let tl := field_get (target_language d) in
  start_translation cfg (Some d) fault db =
  match pending_rollback fault with
  | None =>
      (Ok (translation_started id tl (started tl job)),
       with_job db id (started tl job),
       [EvSetStatus id "uploaded" "processing";
        EvSetTargetLanguage id (TranslationJob.target_language job) tl;
        EvCommit])
  | Some e =>
      (Raised e,
       with_job db id (TranslationJob.set_status "failed" (started tl job)),
       [EvSetStatus id "uploaded" "processing";
        EvSetTargetLanguage id (TranslationJob.target_language job) tl;
        EvSetStatus id "processing" "failed"])
  end.
Proof.
  intros Hk Hj Hl Hjob Hs tl. unfold start_translation. rewrite Hk, Hl.
  destruct (job_id d) as [| |i]; simplify_eq/=.
  unfold_M. rewrite Hjob. simpl. rewrite Hs. simpl.
  destruct fault as [e|];
    repeat (rewrite ?Hjob, ?lookup_insert_eq, ?insert_insert_eq; simpl);
    by rewrite Hs.
Qed.

Lemma start_translation_bad_request cfg data fault db :
  truthy (HEYGEN_API_KEY cfg) = true →
  match data with
  | None => True
  | Some d => present (job_id d) && present (target_language d) = false
  end →
  ∃ r, start_translation cfg data fault db = (Ok r, db, []).
Proof.
  intros Hk Hd. unfold start_translation. rewrite Hk. simpl.
  destruct data as [d|]; [|by eexists].
  destruct (present (job_id d)), (present (target_language d));
    simplify_eq/=; by eexists.
Qed.

Lemma create_user_duplicate e now db p :
  find_by_email (Some e) (users db) = Some p →
  create_user (Some (Value e)) now db = (Ok user_exists, db, []).
Proof. intros H. unfold create_user. unfold_M. cbn [field_get]. by rewrite H. Qed.

Lemma create_user_new e now db :
  find_by_email (Some e) (users db) = None →
  create_user (Some (Value e)) now db =
  (Ok (user_created (next_id (users db)) (User.mk e now)),
   mkDatabase (<[next_id (users db) := User.mk e now]> (users db)) (jobs db),
   [EvAddUser (next_id (users db)); EvCommit]).
Proof. intros H. unfold create_user. unfold_M. cbn [field_get]. by rewrite H. Qed.

Lemma upload_file_user_not_found form now db uid :
  form_user_id form = Some uid → users db !! uid = None →
  upload_file form now db = (Ok user_not_found, db, []).
Proof.
  intros Hu Hn. unfold upload_file. rewrite Hu. unfold_M. by rewrite Hn.
Qed.

Lemma upload_file_stored form now db uid u filename :
  form_user_id form = Some uid → users db !! uid = Some u →
  form_file form = Some filename → filename ≠ "" → save_fault form = None →
  let id := next_id (jobs db) in
  upload_file form now db =
  (Ok (file_uploaded id filename (new_job uid filename now)),
   with_job db id (new_job uid filename now),
   [EvFileSave (path_join UPLOAD_FOLDER filename); EvAddJob id; EvCommit]).
Proof.
  intros Hu Hsome Hf Hne Hs id. unfold upload_file.
  rewrite Hu, Hf, Hs. unfold_M. rewrite Hsome.
  rewrite bool_decide_eq_false_2 by done. simpl.
  by rewrite lookup_insert_eq.
Qed.

(** Every other upload leaves the database alone and performs no effect. *)
Lemma upload_file_rejected form now db :
  (form_user_id form ≫= λ uid, users db !! uid) = None
  ∨ form_file form = None ∨ form_file form = Some ""
  ∨ is_Some (save_fault form) →
  ∃ r, upload_file form now db = (Ok r, db, []).
Proof.
  intros H. unfold upload_file. unfold_M.
  destruct (form_user_id form) as [uid|]; simpl in *; [|by eexists].
  destruct (users db !! uid) as [u|]; [|by eexists].
  destruct (form_file form) as [filename|]; [|by eexists].
  case_bool_decide; [by eexists|].
  destruct (save_fault form) as [msg|]; simpl; [by eexists|].
  destruct H as [|[|[|[]]]]; congruence.
Qed.

Lemma upload_file_save_fails form now db uid u filename msg :
  form_user_id form = Some uid → users db !! uid = Some u →
  form_file form = Some filename → filename ≠ "" →
  save_fault form = Some msg →
  upload_file form now db = (Ok (upload_failed msg), db, []).
Proof.
  intros Hu Hsome Hf Hne Hs. unfold upload_file.
  rewrite Hu, Hf, Hs. unfold_M. rewrite Hsome.
  by rewrite bool_decide_eq_false_2.
Qed.

Lemma apply_provider_outcome_not_found id o db :
  jobs db !! id = None →
  Provider.apply_provider_outcome id o db = (Ok (inl Provider.JobNotFound), db, []).
Proof.
  intros H. unfold Provider.apply_provider_outcome. unfold_M. simpl.
  by rewrite H.
Qed.

Lemma apply_provider_outcome_processing id o db job :
  jobs db !! id = Some job → TranslationJob.status job = "processing" →
  Provider.apply_provider_outcome id o db =
  (Ok (inr (id, TranslationJob.set_status (Provider.status_of o) job)),
   with_job db id (TranslationJob.set_status (Provider.status_of o) job),
   outcome_events id o).
Proof.
  intros H Hs. unfold Provider.apply_provider_outcome. unfold_M. simpl.
  rewrite H. simpl. rewrite Hs. simpl. rewrite H. simpl. rewrite Hs.
  by destruct o.
Qed.

Lemma apply_provider_outcome_terminal id o db job :
  jobs db !! id = Some job →
  Provider.terminal (TranslationJob.status job) = true →
  Provider.apply_provider_outcome id o db = (Ok (inr (id, job)), db, []).
Proof.
  intros H Ht. unfold Provider.apply_provider_outcome. unfold_M. simpl.
  rewrite H. simpl. rewrite Ht.
  case_bool_decide as Hp; [|done].
  rewrite Hp in Ht. done.
Qed.

Lemma apply_provider_outcome_illegal id o db job :
  jobs db !! id = Some job →
  TranslationJob.status job ≠ "processing" →
  Provider.terminal (TranslationJob.status job) = false →
  Provider.apply_provider_outcome id o db =
  (Ok (inl (Provider.InvalidTransition (TranslationJob.status job))), db, []).
Proof.
  intros H Hp Ht. unfold Provider.apply_provider_outcome. unfold_M. simpl.
  rewrite H. simpl. rewrite Ht. by rewrite bool_decide_eq_false_2.
Qed.

Lemma steps_of_eq {A} (m : M A) db a db' l :
  m db = (Ok a, db', l) → db_step db l db' → steps_of m db.
Proof. intros E H. unfold steps_of. by rewrite E. Qed.

Lemma steps_of_raised {A} (m : M A) db e db' l :
  m db = (Raised e, db', l) → steps_of m db.
Proof. intros E. unfold steps_of. by rewrite E. Qed.

Lemma start_translation_step cfg data fault db :
  steps_of (start_translation cfg data fault) db.
Proof.
  destruct (truthy (HEYGEN_API_KEY cfg)) eqn:Hk.
  2: { eapply steps_of_eq; [by apply start_translation_unconfigured|constructor]. }
  destruct data as [d|].
  2: { destruct (start_translation_bad_request cfg None fault db Hk I) as [r E].
       eapply steps_of_eq; [done|constructor]. }
  destruct (present (job_id d) && present (target_language d)) eqn:Hp.
  2: { destruct (start_translation_bad_request cfg (Some d) fault db Hk Hp)
         as [r E].
       eapply steps_of_eq; [done|constructor]. }
  apply andb_true_iff in Hp as [Hj Hl].
  destruct (field_get (job_id d)) as [id|] eqn:Hid.
  2: { eapply steps_of_eq; [|constructor].
       apply start_translation_not_found; try done. by rewrite Hid. }
  destruct (jobs db !! id) as [job|] eqn:Hjob.
  2: { destruct (sqlite_integer id) eqn:Hr.
       - eapply steps_of_eq; [|constructor].
         apply start_translation_not_found; try done. by rewrite Hid.
       - eapply steps_of_raised. by eapply start_translation_overflow. }
  destruct (decide (TranslationJob.status job = "uploaded")) as [Hs|Hs].
  - pose proof (start_translation_uploaded cfg d fault db id job Hk Hid Hl Hjob Hs)
      as E. simpl in E.
    destruct fault; simpl in E.
    + by eapply steps_of_raised.
    + eapply steps_of_eq; [exact E|by constructor].
  - eapply steps_of_eq; [by eapply start_translation_not_uploaded|constructor].
Qed.

Lemma create_user_step data now db : steps_of (create_user data now) db.
Proof.
  destruct data as [[| |e]|].
  1-2, 4: unfold steps_of, create_user; unfold_M; simpl; try constructor.
  - destruct (find_by_email (Some e) (users db)) as [p|] eqn:E.
    + eapply steps_of_eq; [by eapply create_user_duplicate|constructor].
    + eapply steps_of_eq; [by eapply create_user_new|by constructor].
Qed.

Lemma upload_file_step form now db : steps_of (upload_file form now) db.
Proof.
  destruct (form_user_id form ≫= λ uid, users db !! uid) as [u|] eqn:Hu.
  2: { destruct (upload_file_rejected form now db) as [r E]; [by left|].
       eapply steps_of_eq; [done|constructor]. }
  destruct (form_user_id form) as [uid|] eqn:Hid; simplify_eq/=.
  destruct (form_file form) as [filename|] eqn:Hf.
  2: { destruct (upload_file_rejected form now db) as [r E]; [by right; left|].
       eapply steps_of_eq; [done|constructor]. }
  destruct (decide (filename = "")) as [->|Hne].
  { destruct (upload_file_rejected form now db) as [r E];
      [by right; right; left|].
    eapply steps_of_eq; [done|constructor]. }
  destruct (save_fault form) as [msg|] eqn:Hs.
  { destruct (upload_file_rejected form now db) as [r E].
    { right; right; right. rewrite Hs. by eexists. }
    eapply steps_of_eq; [done|constructor]. }
  eapply steps_of_eq; [by eapply upload_file_stored|].
  constructor. by eexists.
Qed.

Lemma apply_provider_outcome_step id o db :
  db_step db (Provider.apply_provider_outcome id o db).2
    (Provider.apply_provider_outcome id o db).1.2.
Proof.
  destruct (jobs db !! id) as [job|] eqn:Hjob.
  2: { rewrite apply_provider_outcome_not_found by done. constructor. }
  destruct (decide (TranslationJob.status job = "processing")) as [Hp|Hp].
  { rewrite (apply_provider_outcome_processing id o db job) by done.
    by constructor. }
  destruct (Provider.terminal (TranslationJob.status job)) eqn:Ht.
  - rewrite (apply_provider_outcome_terminal id o db job) by done. constructor.
  - rewrite (apply_provider_outcome_illegal id o db job) by done. constructor.
Qed.

Lemma view_step (m : M response) db :
  steps_of m db → db_step db (view m db).2 (view m db).1.2.
Proof.
  unfold steps_of, view.
  destruct (m db) as [[[r|e] db'] l]; simpl; [done|constructor].
Qed.

Lemma handle_step cfg req db :
  db_step db (handle cfg req db).2 (handle cfg req db).1.2.
Proof.
  destruct req as [|now| |data now| |job_id0|form now|data fault|job_id0 o];
    cbn [handle].
  1-3, 5: apply view_step; unfold steps_of; unfold_M; simpl; constructor.
  - apply view_step, create_user_step.
  - case_bool_decide; [|constructor].
    apply view_step. unfold steps_of, get_job_status. unfold_M.
    destruct (jobs db !! job_id0); simpl; [constructor|].
    destruct (sqlite_integer job_id0); simpl; [constructor|done].
  - apply view_step, upload_file_step.
  - apply view_step, start_translation_step.
  - pose proof (apply_provider_outcome_step job_id0 o db) as H.
    unfold_M.
    destruct (Provider.apply_provider_outcome job_id0 o db) as [[[r|e] db'] l];
      simpl in *; by rewrite ?app_nil_r.
Qed.

(** ** Runs *)

Lemma run_steps cfg reqs db :
  db_steps db (log_of cfg reqs db) (final_db cfg reqs db).
Proof.
  revert db. induction reqs as [|req reqs IH]; intros db.
  - constructor.
  - pose proof (handle_step cfg req db) as H.
    unfold log_of, final_db in *. simpl.
    destruct (handle cfg req db) as [[r db1] l1]. simpl in H.
    specialize (IH db1).
    destruct (run cfg reqs db1) as [[rs db2] l2]. simpl in *.
    by econstructor.
Qed.

(** ** The lifecycle along a step *)

Lemma db_step_row db l db' i :
  db_step db l db' →
  match jobs db !! i with
  | None =>
      jobs db' !! i = None
      ∨ ∃ uid f now, jobs db' !! i = Some (new_job uid f now)
  | Some job =>
      jobs db' !! i = Some job
      ∨ ∃ job', jobs db' !! i = Some job' ∧ job_moves job job'
  end.
Proof.
  intros [|e now _|uid f now _|id job tl Hj Hs|id job o Hj Hs];
    simpl.
  1-2: destruct (jobs db !! i); by left.
  - destruct (decide (i = next_id (jobs db))) as [->|Hne].
    + rewrite next_id_fresh, lookup_insert_eq. right. by do 3 eexists.
    + rewrite lookup_insert_ne by done. destruct (jobs db !! i); by left.
  - destruct (decide (i = id)) as [->|Hne].
    + rewrite Hj, lookup_insert_eq. right. eexists. split; [done|].
      by constructor.
    + rewrite lookup_insert_ne by done. destruct (jobs db !! i); by left.
  - destruct (decide (i = id)) as [->|Hne].
    + rewrite Hj, lookup_insert_eq. right. eexists. split; [done|].
      by constructor.
    + rewrite lookup_insert_ne by done. destruct (jobs db !! i); by left.
Qed.

Lemma job_moves_valid job job' :
  job_moves job job' → TranslationJob.status job' ∈ valid_statuses.
Proof. intros [tl _|[|r] _]; simpl; set_solver. Qed.

Lemma db_step_valid db l db' : db_step db l db' → db_valid db → db_valid db'.
Proof.
  intros Hstep Hv i job' Hi.
  pose proof (db_step_row db l db' i Hstep) as Hrow.
  destruct (jobs db !! i) as [job|] eqn:E.
  - destruct Hrow as [Hsame|(j & Hj & Hm)]; simplify_eq; [by eapply Hv|].
    by eapply job_moves_valid.
  - destruct Hrow as [Hnone|(uid & f & now & Hnew)]; simplify_eq/=.
    set_solver.
Qed.

Lemma replay_app l1 l2 m :
  replay (l1 ++ l2) m = replay l1 m ≫= replay l2.
Proof.
  revert m. induction l1 as [|e l1 IH]; intros m; [done|].
  destruct e; simpl; try done.
  - by destruct (m !! id).
  - by case_bool_decide.
Qed.

Lemma edge_uploaded_processing : edge "uploaded" "processing".
Proof. unfold edge, transitions. set_solver. Qed.

Lemma edge_processing_outcome o : edge "processing" (Provider.status_of o).
Proof. unfold edge, transitions. destruct o; set_solver. Qed.

Lemma db_step_replay db l db' :
  db_step db l db' → replay l (statuses db) = Some (statuses db').
Proof.
  intros [|e now _|uid f now _|id job tl Hj Hs|id job o Hj Hs];
    unfold statuses; simpl; try done.
  - rewrite lookup_fmap, next_id_fresh. simpl. by rewrite fmap_insert.
  - rewrite bool_decide_eq_true_2.
    2: { rewrite lookup_fmap, Hj. simpl. rewrite Hs.
         split; [done|apply edge_uploaded_processing]. }
    by rewrite fmap_insert.
  - rewrite bool_decide_eq_true_2.
    2: { rewrite lookup_fmap, Hj. simpl. rewrite Hs.
         split; [done|apply edge_processing_outcome]. }
    rewrite fmap_insert. by destruct o.
Qed.

Lemma db_steps_replay db l db' :
  db_steps db l db' → replay l (statuses db) = Some (statuses db').
Proof.
  induction 1 as [|db l1 db1 l2 db2 H1 _ IH]; [done|].
  rewrite replay_app, (db_step_replay _ _ _ H1). done.
Qed.

Lemma db_steps_valid db l db' : db_steps db l db' → db_valid db → db_valid db'.
Proof. induction 1; eauto using db_step_valid. Qed.

Lemma replay_edges l m m' id old new :
  replay l m = Some m' → EvSetStatus id old new ∈ l → edge old new.
Proof.
  revert m. induction l as [|e l IH]; intros m Hr Hin.
  - by apply elem_of_nil in Hin.
  - apply elem_of_cons in Hin as [<-|Hin].
    + simpl in Hr. case_bool_decide as Hd; [|done]. by destruct Hd.
    + destruct e; simpl in Hr; eauto.
      * destruct (m !! id0); [done|eauto].
      * case_bool_decide; [eauto|done].
Qed.

Lemma job_moves_forward job job' :
  job_moves job job' →
  rtc edge (TranslationJob.status job) (TranslationJob.status job')
  ∧ ¬ terminal_status (TranslationJob.status job).
Proof.
  intros [tl Hs|o Hs]; rewrite Hs; simpl;
    (split; [|intros [|]; done]).
  - apply rtc_once, edge_uploaded_processing.
  - apply rtc_once, edge_processing_outcome.
Qed.

Lemma final_db_single cfg req db :
  final_db cfg [req] db = (handle cfg req db).1.2.
Proof.
  unfold final_db. simpl. by destruct (handle cfg req db) as [[r db1] l1].
Qed.

Lemma handle_row cfg req db i :
  match jobs db !! i with
  | None =>
      jobs (final_db cfg [req] db) !! i = None
      ∨ ∃ uid f now, jobs (final_db cfg [req] db) !! i = Some (new_job uid f now)
  | Some job =>
      jobs (final_db cfg [req] db) !! i = Some job
      ∨ ∃ job', jobs (final_db cfg [req] db) !! i = Some job' ∧ job_moves job job'
  end.
Proof.
  rewrite final_db_single. eapply db_step_row, handle_step.
Qed.

(** C1: in every database reached from the empty one by a sequence of
    requests (the routes of the application and the provider's outcome
    report), every job's status is one of uploaded, processing, completed,
    failed; the log of the run replays as a legal history of the lifecycle
    graph (jobs start in uploaded, every status write starts from the job's
    current status and follows an edge); and one more request moves a job's
    status only forward along edges, never out of a terminal state. *)
Theorem job_status_follows_lifecycle (cfg : Config) (reqs : list request) :
  let db := final_db cfg reqs empty_db in
  let log := log_of cfg reqs empty_db in
  (∀ id job,
     jobs db !! id = Some job → TranslationJob.status job ∈ valid_statuses)
  ∧ replay log ∅ = Some (statuses db)
  ∧ (∀ id old new, EvSetStatus id old new ∈ log → edge old new)
  ∧ (∀ req id job,
       jobs db !! id = Some job →
       ∃ job',
         jobs (final_db cfg [req] db) !! id = Some job'
         ∧ rtc edge (TranslationJob.status job) (TranslationJob.status job')
         ∧ (terminal_status (TranslationJob.status job) →
            TranslationJob.status job' = TranslationJob.status job)).
Proof.
  intros db log.
  pose proof (run_steps cfg reqs empty_db) as Hrun. fold db log in Hrun.
  assert (replay log ∅ = Some (statuses db)) as Hreplay.
  { apply db_steps_replay in Hrun. by rewrite <- Hrun. }
  split; [|split; [done|split]].
  - eapply db_steps_valid; [exact Hrun|]. intros id job H. done.
  - intros id old new Hin. by eapply replay_edges.
  - intros req id job Hjob.
    pose proof (handle_row cfg req db id) as Hrow. rewrite Hjob in Hrow.
    destruct Hrow as [Hsame|(job' & Hjob' & Hm)].
    + exists job. by split.
    + exists job'. apply job_moves_forward in Hm as [Hrtc Hnt]. by split.
Qed.

(** ** Requesting a translation *)

(** C2, as stated, fails: "xx" is not a supported language, yet the request
    is answered 200 and the uploaded job becomes a processing job with
    target language "xx". *)
Lemma unsupported_language_is_accepted :
  ("xx" ∉ supported_languages)
  ∧ (start_translation cfg_with_key
       (Some (mkTranslate (Value 1) (Value "xx"))) None db_one_upload).1.1
    = Ok (translation_started 1 (Some "xx")
            (TranslationJob.mk 1 "clip.mp4" (Some "xx") "processing" "t1"))
  ∧ jobs db_one_upload !! 1
    = Some (TranslationJob.mk 1 "clip.mp4" None "uploaded" "t1")
  ∧ jobs (start_translation cfg_with_key
            (Some (mkTranslate (Value 1) (Value "xx"))) None db_one_upload).1.2
      !! 1
    = Some (TranslationJob.mk 1 "clip.mp4" (Some "xx") "processing" "t1").
Proof.
  split; [|split; [|split]].
  - apply (proj1 (bool_decide_eq_false _)). vm_compute. reflexivity.
  - vm_compute. reflexivity.
  - vm_compute. reflexivity.
  - vm_compute. reflexivity.
Qed.

(** C2, amended: a target language outside the supported set is not
    refused and the job is not left unchanged.  With the API key configured,
    a request for an uploaded job and a language [L] that is not in the
    supported set, whose commit succeeds, is answered 200 like any other:
    the job gets status processing and [target_language = L], and nothing
    else is changed. *)
Theorem start_translation_accepts_any_language
    (cfg : Config) (db : Database) (id : Z) (job : TranslationJob.t)
    (L : string) :
  truthy (HEYGEN_API_KEY cfg) = true →
  jobs db !! id = Some job →
  TranslationJob.status job = "uploaded" →
  L ∉ supported_languages →
  start_translation cfg (Some (mkTranslate (Value id) (Value L))) None db
  = (Ok (jsonify [
           ("message", JStr "Translation started successfully!");
           ("job", JObj [
              ("id", JInt id);
              ("user_id", JInt (TranslationJob.user_id job));
              ("original_filename",
               JStr (TranslationJob.original_filename job));
              ("target_language", JStr L);
              ("status", JStr "processing");
              ("created_at", JStr (TranslationJob.created_at job))]);
           ("status", JStr "processing");
           ("target_language", JStr L);
           ("note", JStr "Currently simulated - real HeyGen integration ready for your API key")],
         200),
     mkDatabase (users db)
       (<[id := TranslationJob.mk (TranslationJob.user_id job)
                  (TranslationJob.original_filename job) (Some L)
                  "processing" (TranslationJob.created_at job)]> (jobs db)),
     [EvSetStatus id "uploaded" "processing";
      EvSetTargetLanguage id (TranslationJob.target_language job) (Some L);
      EvCommit]).
Proof.
  intros Hk Hjob Hs _.
  by rewrite (start_translation_uploaded cfg (mkTranslate (Value id) (Value L))
                None db id job Hk eq_refl eq_refl Hjob Hs).
Qed.

Lemma start_translation_accepts_any_language_witness :
  start_translation cfg_with_key
    (Some (mkTranslate (Value 1) (Value "xx"))) None db_one_upload
  = (Ok (translation_started 1 (Some "xx")
           (TranslationJob.mk 1 "clip.mp4" (Some "xx") "processing" "t1")),
     mkDatabase (users db_one_upload)
       (<[1 := TranslationJob.mk 1 "clip.mp4" (Some "xx") "processing" "t1"]>
          (jobs db_one_upload)),
     [EvSetStatus 1 "uploaded" "processing";
      EvSetTargetLanguage 1 None (Some "xx");
      EvCommit]).
Proof.
  apply (start_translation_accepts_any_language cfg_with_key db_one_upload 1
           (new_job 1 "clip.mp4" "t1") "xx");
    [reflexivity|vm_compute; reflexivity|reflexivity|].
  apply (proj1 (bool_decide_eq_false _)). vm_compute. reflexivity.
Defined.

(** C3, as stated, fails: without an API key a request that names a job
    which does not exist is answered with the configuration error, not with
    "Job not found". *)
Lemma unknown_job_without_key_is_not_job_not_found :
  jobs empty_db !! 7 = None
  ∧ start_translation cfg_without_key
      (Some (mkTranslate (Value 7) (Value "es"))) None empty_db
    = (Ok not_configured, empty_db, [])
  ∧ not_configured ≠ job_not_found.
Proof. split; [|split]; [vm_compute; reflexivity..|discriminate]. Qed.

(** C3, amended: when the API key is configured, a request that carries
    both keys and names a job whose status is not uploaded changes nothing,
    performs no effect at all, and is answered 400 with a message that
    quotes the job's actual status; one that names no existing job, by an
    id that SQLite can hold (a signed 64-bit integer), is answered 404 "Job
    not found", again without any change or effect. *)
Theorem start_translation_rejects_wrong_state
    (cfg : Config) (db : Database) (id : Z) (lang : field string)
    (fault : option string) :
  truthy (HEYGEN_API_KEY cfg) = true →
  present lang = true →
  (∀ job,
     jobs db !! id = Some job →
     TranslationJob.status job ≠ "uploaded" →
     start_translation cfg (Some (mkTranslate (Value id) lang)) fault db
     = (Ok (jsonify [("error",
              JStr ("Job status is " +:+ TranslationJob.status job
                    +:+ ", expected uploaded"))], 400), db, []))
  ∧ (jobs db !! id = None →
     - 2 ^ 63 ≤ id < 2 ^ 63 →
     start_translation cfg (Some (mkTranslate (Value id) lang)) fault db
     = (Ok (jsonify [("error", JStr "Job not found")], 404), db, [])).
Proof.
  intros Hk Hl. split.
  - intros job Hjob Hs.
    by rewrite (start_translation_not_uploaded cfg
                  (mkTranslate (Value id) lang) fault db id job).
  - intros Hjob Hr.
    rewrite (start_translation_not_found cfg (mkTranslate (Value id) lang));
      try done.
    simpl. split; [done|]. unfold sqlite_integer.
    apply andb_true_iff. split; [apply Z.leb_le|apply Z.ltb_lt]; lia.
Qed.

Lemma start_translation_rejects_wrong_state_witness :
  start_translation cfg_with_key
    (Some (mkTranslate (Value 1) (Value "fr"))) None db_processing
  = (Ok (jsonify [("error",
           JStr "Job status is processing, expected uploaded")], 400),
     db_processing, [])
  ∧ start_translation cfg_with_key
      (Some (mkTranslate (Value 7) (Value "fr"))) None db_processing
    = (Ok (jsonify [("error", JStr "Job not found")], 404), db_processing, []).
Proof.
  split.
  - apply (proj1 (start_translation_rejects_wrong_state cfg_with_key
                    db_processing 1 (Value "fr") None eq_refl eq_refl)
             (TranslationJob.mk 1 "clip.mp4" (Some "es") "processing" "t1"));
      [vm_compute; reflexivity|discriminate].
  - apply (proj2 (start_translation_rejects_wrong_state cfg_with_key
                    db_processing 7 (Value "fr") None eq_refl eq_refl));
      [vm_compute; reflexivity|lia].
Defined.


(** C10: when HEYGEN_API_KEY is unset or empty, every request to
    /api/translate, whatever its body and whatever the database holds, is
    answered with the configuration error before any job is looked up; the
    database is unchanged and nothing is done.  A request that names a job
    which does not exist gets this answer too, not "Job not found". *)
Theorem start_translation_needs_api_key
    (cfg : Config) (data : option translate_data) (fault : option string)
    (db : Database) :
  truthy (HEYGEN_API_KEY cfg) = false →
  start_translation cfg data fault db
  = (Ok (jsonify [("error", JStr "HeyGen API not configured");
                  ("message",
                   JStr "Please set HEYGEN_API_KEY environment variable")],
         500), db, [])
  ∧ final_db cfg [POST_translate data fault] db = db
  ∧ log_of cfg [POST_translate data fault] db = [].
Proof.
  intros Hk.
  pose proof (start_translation_unconfigured cfg data fault db Hk) as E.
  split; [exact E|].
  unfold final_db, log_of. simpl. unfold view. by rewrite E.
Qed.

Lemma start_translation_needs_api_key_witness :
  start_translation (mkConfig (Some ""))
    (Some (mkTranslate (Value 7) (Value "es"))) None db_one_upload
  = (Ok (jsonify [("error", JStr "HeyGen API not configured");
                  ("message",
                   JStr "Please set HEYGEN_API_KEY environment variable")],
         500), db_one_upload, [])
  ∧ final_db (mkConfig (Some ""))
      [POST_translate (Some (mkTranslate (Value 7) (Value "es"))) None]
      db_one_upload = db_one_upload
  ∧ log_of (mkConfig (Some ""))
      [POST_translate (Some (mkTranslate (Value 7) (Value "es"))) None]
      db_one_upload = [].
Proof.
  apply (start_translation_needs_api_key (mkConfig (Some ""))
           (Some (mkTranslate (Value 7) (Value "es"))) None db_one_upload).
  reflexivity.
Defined.

(** X2: of two requests for the same uploaded job served one after the
    other, the first, whose commit succeeds, is carried out and the second
    is rejected with the 400 answer that quotes the status processing,
    without changing anything; the job's status leaves uploaded exactly
    once. *)
Theorem second_start_translation_is_rejected
    (cfg : Config) (db : Database) (id : Z) (job : TranslationJob.t)
    (lang1 lang2 : field string) (fault2 : option string) :
  truthy (HEYGEN_API_KEY cfg) = true →
  present lang1 = true → present lang2 = true →
  jobs db !! id = Some job →
  TranslationJob.status job = "uploaded" →
  let first :=
    start_translation cfg (Some (mkTranslate (Value id) lang1)) None db in
  start_translation cfg (Some (mkTranslate (Value id) lang2)) fault2 first.1.2
  = (Ok (invalid_transition "processing"), first.1.2, [])
  ∧ List.filter (leaves_uploaded id) first.2
    = [EvSetStatus id "uploaded" "processing"].
Proof.
  intros Hk Hl1 Hl2 Hjob Hs first. subst first.
  rewrite (start_translation_uploaded cfg (mkTranslate (Value id) lang1)
             None db id job Hk eq_refl Hl1 Hjob Hs).
  simpl. rewrite Z.eqb_refl. simpl. split; [|done].
  by rewrite (start_translation_not_uploaded cfg
                (mkTranslate (Value id) lang2) fault2 _ id
                (started (field_get lang1) job) Hk eq_refl Hl2
                (lookup_insert_eq _ _ _)).
Qed.

Lemma second_start_translation_is_rejected_witness :
  start_translation cfg_with_key (Some (mkTranslate (Value 1) (Value "fr")))
    None
    (start_translation cfg_with_key
       (Some (mkTranslate (Value 1) (Value "es"))) None db_one_upload).1.2
  = (Ok (invalid_transition "processing"),
     (start_translation cfg_with_key
        (Some (mkTranslate (Value 1) (Value "es"))) None db_one_upload).1.2,
     []).
Proof.
  apply (second_start_translation_is_rejected cfg_with_key db_one_upload 1
           (new_job 1 "clip.mp4" "t1") (Value "es") (Value "fr") None);
    vm_compute; reflexivity.
Defined.

(** ** The target language *)

(** C4 does not hold of the code: a body whose ["target_language"] key is
    present with JSON null passes the "required" check, the request is
    answered 200, and the job is left in status processing with a null
    target language. *)
Lemma null_language_job_is_processing :
  jobs (final_db cfg_with_key requests_null_language empty_db) !! 1
  = Some (TranslationJob.mk 1 "clip.mp4" None "processing" "t1")
  ∧ last (run cfg_with_key requests_null_language empty_db).1.1
    = Some (Http (translation_started 1 None
                    (TranslationJob.mk 1 "clip.mp4" None "processing" "t1"))).
Proof. split; vm_compute; reflexivity. Qed.

Lemma job_moves_not_uploaded job job' :
  job_moves job job' → TranslationJob.status job' ≠ "uploaded".
Proof. intros [tl _|[|r] _]; simpl; discriminate. Qed.

Lemma db_step_uploaded_without_language db l db' :
  db_step db l db' →
  uploaded_without_language db → uploaded_without_language db'.
Proof.
  intros Hstep Hinv i job' Hi Hs.
  pose proof (db_step_row db l db' i Hstep) as Hrow.
  destruct (jobs db !! i) as [job|] eqn:E.
  - destruct Hrow as [Hsame|(j & Hj & Hm)]; simplify_eq; [by eapply Hinv|].
    by apply job_moves_not_uploaded in Hm.
  - destruct Hrow as [Hnone|(uid & f & now & Hnew)]; by simplify_eq/=.
Qed.

Lemma db_steps_uploaded_without_language db l db' :
  db_steps db l db' →
  uploaded_without_language db → uploaded_without_language db'.
Proof. induction 1; eauto using db_step_uploaded_without_language. Qed.

(** X1 (the part of C4 that holds): a job in status uploaded has no target
    language; the target language of a job is written only by the request
    that takes it out of uploaded; once the status is no longer uploaded, no
    request changes the target language. *)
Theorem target_language_written_on_start_only
    (cfg : Config) (reqs : list request) :
  let db := final_db cfg reqs empty_db in
  (∀ id job,
     jobs db !! id = Some job →
     TranslationJob.status job = "uploaded" →
     TranslationJob.target_language job = None)
  ∧ (∀ req id job,
       jobs db !! id = Some job →
       ∃ job',
         jobs (final_db cfg [req] db) !! id = Some job'
         ∧ (TranslationJob.status job ≠ "uploaded" →
            TranslationJob.target_language job'
            = TranslationJob.target_language job)
         ∧ (TranslationJob.target_language job'
            ≠ TranslationJob.target_language job →
            TranslationJob.status job = "uploaded"
            ∧ TranslationJob.status job' ≠ "uploaded")).
Proof.
  intros db. split.
  - eapply db_steps_uploaded_without_language; [apply run_steps|].
    intros id job H. done.
  - intros req id job Hjob.
    pose proof (handle_row cfg req db id) as Hrow. rewrite Hjob in Hrow.
    destruct Hrow as [Hsame|(job' & Hjob' & Hm)].
    + exists job. by split.
    + exists job'. split; [done|].
      destruct Hm as [tl Hs|o Hs]; simpl; split; try done;
        rewrite ?Hs; intros; try done; by destruct o.
Qed.

(** ** The provider's outcome, delivered again *)

Lemma terminal_status_true s :
  terminal_status s → Provider.terminal s = true.
Proof. by intros [-> | ->]. Qed.

(** C6: an outcome delivered for a job that is already completed or failed
    changes nothing, does nothing, and returns that job without an error;
    in particular, after a first delivery has taken a processing job to its
    terminal state, a second delivery (of the same or of another outcome)
    leaves the database as the first one left it. *)
Theorem apply_provider_outcome_idempotent
    (db : Database) (id : Z) (job : TranslationJob.t) :
  jobs db !! id = Some job →
  (terminal_status (TranslationJob.status job) →
   ∀ o, Provider.apply_provider_outcome id o db = (Ok (inr (id, job)), db, []))
  ∧ (TranslationJob.status job = "processing" →
     ∀ o1 o2,
       let first := Provider.apply_provider_outcome id o1 db in
       let job1 := TranslationJob.set_status (Provider.status_of o1) job in
       first.1.1 = Ok (inr (id, job1))
       ∧ terminal_status (TranslationJob.status job1)
       ∧ Provider.apply_provider_outcome id o2 first.1.2
         = (Ok (inr (id, job1)), first.1.2, [])).
Proof.
  intros Hjob. split.
  - intros Ht o. apply apply_provider_outcome_terminal; [done|].
    by apply terminal_status_true.
  - intros Hs o1 o2 first job1. subst first.
    rewrite (apply_provider_outcome_processing id o1 db job Hjob Hs). simpl.
    split; [done|]. split.
    + destruct o1; [by left|by right].
    + apply apply_provider_outcome_terminal.
      * simpl. by rewrite lookup_insert_eq.
      * by destruct o1.
Qed.

Lemma apply_provider_outcome_idempotent_witness :
  Provider.apply_provider_outcome 1 (Provider.Failed "late")
    (Provider.apply_provider_outcome 1 Provider.Completed db_processing).1.2
  = (Ok (inr (1, TranslationJob.mk 1 "clip.mp4" (Some "es") "completed" "t1")),
     (Provider.apply_provider_outcome 1 Provider.Completed db_processing).1.2,
     []).
Proof.
  apply (proj2 (apply_provider_outcome_idempotent db_processing 1
                  (TranslationJob.mk 1 "clip.mp4" (Some "es") "processing" "t1")
                  eq_refl) eq_refl Provider.Completed (Provider.Failed "late")).
Defined.

(** ** Uploads *)

(** C8: an upload whose user_id names no account is answered 404 "User not
    found", creates no job and does nothing; an upload by an existing
    account whose file is saved creates exactly one job, under a key that
    was free, in status uploaded and without a target language, and the
    only effects are the file save, the insertion and the commit. *)
Theorem upload_file_registers_job
    (form : upload_form) (now : string) (db : Database) (uid : Z) :
  form_user_id form = Some uid →
  (users db !! uid = None →
   upload_file form now db
   = (Ok (jsonify [("error", JStr "User not found")], 404), db, []))
  ∧ (∀ filename,
       is_Some (users db !! uid) →
       form_file form = Some filename → filename ≠ "" →
       save_fault form = None →
       let id := next_id (jobs db) in
       let job := TranslationJob.mk uid filename None "uploaded" now in
       jobs db !! id = None
       ∧ upload_file form now db
         = (Ok (file_uploaded id filename job),
            mkDatabase (users db) (<[id := job]> (jobs db)),
            [EvFileSave (path_join UPLOAD_FOLDER filename);
             EvAddJob id; EvCommit])
       ∧ TranslationJob.status job = "uploaded"
       ∧ TranslationJob.target_language job = None).
Proof.
  intros Hu. split.
  - intros Hn. by apply (upload_file_user_not_found form now db uid).
  - intros filename [u Hsome] Hf Hne Hs id job.
    split; [apply next_id_fresh|]. split; [|done].
    by apply (upload_file_stored form now db uid u filename).
Qed.

Lemma upload_file_registers_job_witness :
  upload_file (mkUpload (Some 9) (Some "clip.mp4") None) "t2" db_one_upload
  = (Ok (jsonify [("error", JStr "User not found")], 404), db_one_upload, [])
  ∧ jobs (upload_file (mkUpload (Some 1) (Some "talk.mov") None) "t2"
            db_one_upload).1.2 !! 2
    = Some (TranslationJob.mk 1 "talk.mov" None "uploaded" "t2").
Proof.
  split.
  - apply (proj1 (upload_file_registers_job
                    (mkUpload (Some 9) (Some "clip.mp4") None) "t2"
                    db_one_upload 9 eq_refl)).
    vm_compute. reflexivity.
  - pose proof (proj2 (upload_file_registers_job
                         (mkUpload (Some 1) (Some "talk.mov") None) "t2"
                         db_one_upload 1 eq_refl) "talk.mov") as H.
    destruct H as (_ & E & _);
      [vm_compute; eauto|reflexivity|discriminate|reflexivity|].
    rewrite E. vm_compute. reflexivity.
Defined.

(** ** Accounts *)

Lemma db_step_unique_emails db l db' :
  db_step db l db' → unique_emails (users db) → unique_emails (users db').
Proof.
  intros [|e now Hnone|uid f now _|id job tl _ _|id job o _ _] Hu;
    simpl; try done.
  rewrite find_by_email_None in Hnone.
  intros i j u v Hi Hj He.
  destruct (decide (i = next_id (users db))) as [->|Hi'];
    destruct (decide (j = next_id (users db))) as [->|Hj']; [done|..].
  - rewrite lookup_insert_eq in Hi. rewrite lookup_insert_ne in Hj by done.
    simplify_eq/=. by destruct (Hnone j v Hj).
  - rewrite lookup_insert_eq in Hj. rewrite lookup_insert_ne in Hi by done.
    simplify_eq/=. by destruct (Hnone i u Hi).
  - rewrite lookup_insert_ne in Hi, Hj by done. by eapply Hu.
Qed.

Lemma db_steps_unique_emails db l db' :
  db_steps db l db' → unique_emails (users db) → unique_emails (users db').
Proof. induction 1; eauto using db_step_unique_emails. Qed.

(** C9: creating an account with an email that some account already has is
    answered 400 "User already exists" and leaves the database unchanged;
    with an email no account has, exactly one account is added, under a key
    that was free, with that email; and emails that are unique across the
    accounts stay unique after any sequence of requests. *)
Theorem create_user_keeps_emails_unique
    (e now : string) (db : Database) :
  ((∃ i u, users db !! i = Some u ∧ User.email u = e) →
   create_user (Some (Value e)) now db
   = (Ok (jsonify [("error", JStr "User already exists")], 400), db, []))
  ∧ ((∀ i u, users db !! i = Some u → User.email u ≠ e) →
     let id := next_id (users db) in
     users db !! id = None
     ∧ create_user (Some (Value e)) now db
       = (Ok (user_created id (User.mk e now)),
          mkDatabase (<[id := User.mk e now]> (users db)) (jobs db),
          [EvAddUser id; EvCommit])
     ∧ size (<[id := User.mk e now]> (users db)) = S (size (users db)))
  ∧ (unique_emails (users db) →
     ∀ cfg reqs, unique_emails (users (final_db cfg reqs db))).
Proof.
  split; [|split].
  - intros (i & u & Hi & He).
    destruct (find_by_email (Some e) (users db)) as [p|] eqn:E.
    + by apply (create_user_duplicate e now db p).
    + rewrite find_by_email_None in E. by destruct (E i u Hi).
  - intros Hnone id. apply find_by_email_None in Hnone.
    split; [apply next_id_fresh|]. split.
    + by apply create_user_new.
    + apply map_size_insert_None, next_id_fresh.
  - intros Hu cfg reqs.
    eapply db_steps_unique_emails; [apply run_steps|done].
Qed.

Lemma create_user_keeps_emails_unique_witness :
  create_user (Some (Value "ana@example.org")) "t5" db_one_upload
  = (Ok (jsonify [("error", JStr "User already exists")], 400),
     db_one_upload, [])
  ∧ users (create_user (Some (Value "bo@example.org")) "t5" empty_db).1.2 !! 1
    = Some (User.mk "bo@example.org" "t5")
  ∧ unique_emails
      (users (final_db cfg_with_key
                [POST_users (Some (Value "ana@example.org")) "t0";
                 POST_users (Some (Value "ana@example.org")) "t1"] empty_db)).
Proof.
  split; [|split].
  - apply (proj1 (create_user_keeps_emails_unique "ana@example.org" "t5"
                    db_one_upload)).
    exists 1, (User.mk "ana@example.org" "t0"). split; reflexivity.
  - pose proof (proj1 (proj2 (create_user_keeps_emails_unique
                                "bo@example.org" "t5" empty_db))) as H.
    destruct H as (_ & E & _).
    + intros i u Hi. simpl in Hi. by rewrite lookup_empty in Hi.
    + rewrite E. vm_compute. reflexivity.
  - apply (proj2 (proj2 (create_user_keeps_emails_unique "" "" empty_db))).
    intros i j u v Hi. simpl in Hi. by rewrite lookup_empty in Hi.
Defined.

(** * Further properties of the routes *)

(** ** Error answers *)

Lemma create_user_email_required data now db :
  data = None ∨ data = Some Missing →
  create_user data now db = (Ok email_required, db, []).
Proof. by intros [-> | ->]. Qed.

Lemma upload_file_no_user_id form now db :
  form_user_id form = None →
  upload_file form now db = (Ok user_id_required, db, []).
Proof. intros H. unfold upload_file. by rewrite H. Qed.

Lemma upload_file_no_file form now db uid u :
  form_user_id form = Some uid → users db !! uid = Some u →
  form_file form = None →
  upload_file form now db = (Ok no_file_provided, db, []).
Proof.
  intros Hu Hsome Hf. unfold upload_file. rewrite Hu, Hf. unfold_M.
  by rewrite Hsome.
Qed.

Lemma upload_file_no_filename form now db uid u :
  form_user_id form = Some uid → users db !! uid = Some u →
  form_file form = Some "" →
  upload_file form now db = (Ok no_file_selected, db, []).
Proof.
  intros Hu Hsome Hf. unfold upload_file. rewrite Hu, Hf. unfold_M.
  by rewrite Hsome.
Qed.

Lemma start_translation_keys_required cfg data fault db :
  truthy (HEYGEN_API_KEY cfg) = true →
  match data with
  | None => True
  | Some d => present (job_id d) && present (target_language d) = false
  end →
  start_translation cfg data fault db = (Ok keys_required, db, []).
Proof.
  intros Hk Hd. unfold start_translation. rewrite Hk. simpl.
  destruct data as [d|]; [|done].
  by destruct (present (job_id d)), (present (target_language d)).
Qed.

(** X4: POST /api/users whose JSON body is null, or is an object that has
    no "email" key, is answered 400 "Email is required"; nothing is stored
    and nothing is done, whatever the database holds. *)
Theorem create_user_requires_email
    (data : option (field string)) (now : string) (db : Database) :
  data = None ∨ data = Some Missing →
  create_user data now db
  = (Ok (jsonify [("error", JStr "Email is required")], 400), db, []).
Proof. apply create_user_email_required. Qed.

Lemma create_user_requires_email_witness :
  create_user (Some Missing) "t9" db_one_upload
  = (Ok (jsonify [("error", JStr "Email is required")], 400),
     db_one_upload, []).
Proof.
  apply (create_user_requires_email (Some Missing) "t9" db_one_upload).
  by right.
Defined.

(** X5: the checks of POST /api/upload, in their order.  A form without
    user_id is answered 400 before anything is looked up; a user_id that
    names no account is answered 404 even when the file is missing too; for
    an existing account a missing file part and an empty filename are
    answered 400; and when saving the file raises, the answer is 500
    "Upload failed" with the exception text.  In all five cases no job is
    created and nothing is done. *)
Theorem upload_file_rejections
    (form : upload_form) (now : string) (db : Database) :
  (form_user_id form = None →
   upload_file form now db
   = (Ok (jsonify [("error", JStr "user_id is required")], 400), db, []))
  ∧ (∀ uid,
       form_user_id form = Some uid → users db !! uid = None →
       upload_file form now db
       = (Ok (jsonify [("error", JStr "User not found")], 404), db, []))
  ∧ (∀ uid,
       form_user_id form = Some uid → is_Some (users db !! uid) →
       (form_file form = None →
        upload_file form now db
        = (Ok (jsonify [("error", JStr "No file provided")], 400), db, []))
       ∧ (form_file form = Some "" →
          upload_file form now db
          = (Ok (jsonify [("error", JStr "No file selected")], 400), db, []))
       ∧ (∀ filename msg,
            form_file form = Some filename → filename ≠ "" →
            save_fault form = Some msg →
            upload_file form now db
            = (Ok (jsonify [("error", JStr "Upload failed");
                            ("details", JStr msg)], 500), db, []))).
Proof.
  split; [|split].
  - apply upload_file_no_user_id.
  - intros uid. apply upload_file_user_not_found.
  - intros uid Hu [u Hsome]. split; [|split].
    + by apply (upload_file_no_file form now db uid u).
    + by apply (upload_file_no_filename form now db uid u).
    + intros filename msg Hf Hne Hs.
      by apply (upload_file_save_fails form now db uid u filename msg).
Qed.

Lemma upload_file_rejections_witness :
  upload_file (mkUpload (Some 9) None None) "t2" db_one_upload
  = (Ok (jsonify [("error", JStr "User not found")], 404), db_one_upload, [])
  ∧ upload_file (mkUpload (Some 1) (Some "clip.mp4") (Some "disk full")) "t2"
      db_one_upload
    = (Ok (jsonify [("error", JStr "Upload failed");
                    ("details", JStr "disk full")], 500), db_one_upload, []).
Proof.
  split.
  - apply (proj1 (proj2 (upload_file_rejections
                           (mkUpload (Some 9) None None) "t2" db_one_upload))
             9 eq_refl).
    vm_compute. reflexivity.
  - pose proof (proj2 (proj2 (upload_file_rejections
                           (mkUpload (Some 1) (Some "clip.mp4")
                              (Some "disk full")) "t2" db_one_upload))
                  1 eq_refl) as H.
    destruct H as (_ & _ & H); [vm_compute; eauto|].
    apply (H "clip.mp4" "disk full"); [reflexivity|discriminate|reflexivity].
Defined.

(** X6: with the API key configured, POST /api/translate whose JSON body
    is null, or is an object that lacks "job_id" or "target_language", is
    answered 400 with the list of the ten supported languages, before any
    job is looked up: the answer is the same whether or not the job named
    exists, and nothing is changed or done. *)
Theorem start_translation_requires_both_keys
    (cfg : Config) (data : option translate_data) (fault : option string)
    (db : Database) :
  truthy (HEYGEN_API_KEY cfg) = true →
  match data with
  | None => True
  | Some d => present (job_id d) = false ∨ present (target_language d) = false
  end →
  start_translation cfg data fault db
  = (Ok (jsonify [
           ("error", JStr "job_id and target_language are required");
           ("supported_languages",
            JList [JStr "es"; JStr "fr"; JStr "de"; JStr "it"; JStr "pt";
                   JStr "ru"; JStr "ja"; JStr "ko"; JStr "zh"; JStr "hi"])],
         400), db, []).
Proof.
  intros Hk Hd. apply start_translation_keys_required; [done|].
  destruct data as [d|]; [|done].
  destruct Hd as [-> | ->]; [done|]. by rewrite andb_false_r.
Qed.

Lemma start_translation_requires_both_keys_witness :
  start_translation cfg_with_key (Some (mkTranslate (Value 7) Missing)) None
    db_one_upload
  = (Ok keys_required, db_one_upload, []).
Proof.
  apply (start_translation_requires_both_keys cfg_with_key
           (Some (mkTranslate (Value 7) Missing)) None db_one_upload).
  - reflexivity.
  - by right.
Defined.

(** ** The GET routes *)

(** X8: a GET request (/, /api/test, /api/users, /api/jobs,
    /api/jobs/<id>) never changes the database and does nothing.  It is
    answered 200, except for /api/jobs/<id>: a negative id matches no rule
    and is answered 404; otherwise the answer is 200 when a job has that id,
    404 when none has and the id is below 2^63, and 500 when none has and
    the id is 2^63 or more, which SQLite cannot take. *)
Theorem get_routes_only_read (cfg : Config) (req : request) (db : Database) :
  is_get req = true →
  final_db cfg [req] db = db
  ∧ log_of cfg [req] db = []
  ∧ reply_code (handle cfg req db).1.1
    = Some (match req with
            | GET_job id =>
                if bool_decide (id < 0) then 404
                else if jobs db !! id is Some _ then 200
                else if bool_decide (id < 2 ^ 63) then 404
                else 500
            | _ => 200
            end).
Proof.
  intros Hg. rewrite final_db_single. unfold log_of.
  destruct req as [|now| |data now| |jid|form now|data fault|jid o];
    try done; cbn [handle run].
  all: try by unfold view; unfold_M.
  do 2 case_bool_decide; try lia; [|done].
  unfold view, get_job_status. unfold_M.
  destruct (jobs db !! jid); [done|].
  unfold sqlite_integer.
  case_bool_decide.
  - rewrite (proj2 (Z.leb_le _ _)) by lia.
    by rewrite (proj2 (Z.ltb_lt _ _)) by lia.
  - rewrite (proj2 (Z.leb_le _ _)) by lia.
    by rewrite (proj2 (Z.ltb_ge _ _)) by lia.
Qed.

Lemma get_routes_only_read_witness :
  final_db cfg_with_key [GET_job 5] db_one_upload = db_one_upload
  ∧ log_of cfg_with_key [GET_job 5] db_one_upload = []
  ∧ reply_code (handle cfg_with_key (GET_job 5) db_one_upload).1.1 = Some 404.
Proof.
  apply (get_routes_only_read cfg_with_key (GET_job 5) db_one_upload).
  reflexivity.
Defined.

Lemma query_all_perm {A} (m : gmap Z A) : query_all m ≡ₚ map_to_list m.
Proof. apply merge_sort_Permutation. Qed.

Lemma length_query_all {A} (m : gmap Z A) : length (query_all m) = size m.
Proof. rewrite query_all_perm. apply length_map_to_list. Qed.

Lemma elem_of_query_all {A} (m : gmap Z A) i x :
  (i, x) ∈ query_all m ↔ m !! i = Some x.
Proof. rewrite query_all_perm. apply elem_of_map_to_list. Qed.

Lemma NoDup_query_all {A} (m : gmap Z A) : NoDup (query_all m).
Proof. rewrite query_all_perm. apply NoDup_map_to_list. Qed.

Lemma user_to_dict_inj id id' u u' :
  User.to_dict id u = User.to_dict id' u' → id = id' ∧ u = u'.
Proof. destruct u, u'. unfold User.to_dict. simpl. by intros [= -> -> ->]. Qed.

Lemma job_to_dict_inj id id' j j' :
  TranslationJob.to_dict id j = TranslationJob.to_dict id' j' →
  id = id' ∧ j = j'.
Proof.
  destruct j as [u f t s c], j' as [u' f' t' s' c'].
  unfold TranslationJob.to_dict. simpl. intros [= -> -> -> Ht -> ->].
  split; [done|]. f_equal. by destruct t, t'; simplify_eq/=.
Qed.

(** X9: GET /api/users lists every account exactly once: the answer is 200,
    its "count" is the number of rows of the user table, the "users" list
    has that length and no repetition, and an entry is in the list exactly
    when it is the dictionary of a stored row. *)
Theorem get_users_lists_every_account (db : Database) :
  ∃ entries,
    get_users db
    = (Ok (jsonify [("users", JList entries);
                    ("count", JInt (Z.of_nat (size (users db))))], 200),
       db, [])
    ∧ length entries = size (users db)
    ∧ NoDup entries
    ∧ ∀ id u, User.to_dict id u ∈ entries ↔ users db !! id = Some u.
Proof.
  eexists. unfold get_users. unfold_M. rewrite length_query_all.
  split; [done|]. split; [|split].
  - by rewrite length_fmap, length_query_all.
  - apply NoDup_fmap_2_strong; [|apply NoDup_query_all].
    intros [i u] [j v] _ _ H. apply user_to_dict_inj in H as [? ?].
    by simplify_eq/=.
  - intros id u. rewrite list_elem_of_fmap. split.
    + intros ([j v] & H & Hin). apply user_to_dict_inj in H as [-> ->].
      by apply elem_of_query_all in Hin.
    + intros H. exists (id, u). split; [done|]. by apply elem_of_query_all.
Qed.

(** X10: GET /api/jobs lists every job exactly once: the answer is 200, its
    "count" is the number of rows of the job table, the "jobs" list has that
    length and no repetition, and an entry is in the list exactly when it is
    the dictionary of a stored row. *)
Theorem get_jobs_lists_every_job (db : Database) :
  ∃ entries,
    get_jobs db
    = (Ok (jsonify [("jobs", JList entries);
                    ("count", JInt (Z.of_nat (size (jobs db))))], 200),
       db, [])
    ∧ length entries = size (jobs db)
    ∧ NoDup entries
    ∧ ∀ id job, TranslationJob.to_dict id job ∈ entries
                ↔ jobs db !! id = Some job.
Proof.
  eexists. unfold get_jobs. unfold_M. rewrite length_query_all.
  split; [done|]. split; [|split].
  - by rewrite length_fmap, length_query_all.
  - apply NoDup_fmap_2_strong; [|apply NoDup_query_all].
    intros [i u] [j v] _ _ H. apply job_to_dict_inj in H as [? ?].
    by simplify_eq/=.
  - intros id u. rewrite list_elem_of_fmap. split.
    + intros ([j v] & H & Hin). apply job_to_dict_inj in H as [-> ->].
      by apply elem_of_query_all in Hin.
    + intros H. exists (id, u). split; [done|]. by apply elem_of_query_all.
Qed.

(** ** What the routes do to stored rows *)

Lemma route_step_of_handle cfg req db :
  is_route req = true → route_step db (handle cfg req db).1.2.
Proof.
  intros Hr.
  assert (∀ m : M response,
            match m db with
            | (Ok _, db', _) => route_step db db'
            | (Raised _, _, _) => True
            end →
            route_step db (view m db).1.2) as Hview.
  { intros m. unfold view.
    destruct (m db) as [[[r|e] db'] l]; simpl; [done|constructor]. }
  destruct req as [|now| |data now| |jid|form now|data fault|jid o];
    try done; cbn [handle]; try apply Hview.
  1-3, 5: unfold_M; simpl; constructor.
  - destruct data as [[| |e]|].
    1-2, 4: unfold create_user; unfold_M; simpl; try constructor.
    destruct (find_by_email (Some e) (users db)) as [p|] eqn:E.
    + rewrite (create_user_duplicate e now db p) by done. constructor.
    + rewrite create_user_new by done. by constructor.
  - case_bool_decide; [apply Hview|constructor].
    unfold get_job_status. unfold_M.
    destruct (jobs db !! jid); [constructor|].
    destruct (sqlite_integer jid); [constructor|done].
  - destruct (form_user_id form) as [uid|] eqn:Hid.
    2: { rewrite upload_file_no_user_id by done. constructor. }
    destruct (users db !! uid) as [u|] eqn:Hu.
    2: { rewrite (upload_file_user_not_found form now db uid) by done.
         constructor. }
    destruct (form_file form) as [filename|] eqn:Hf.
    2: { rewrite (upload_file_no_file form now db uid u) by done. constructor. }
    destruct (decide (filename = "")) as [->|Hne].
    { rewrite (upload_file_no_filename form now db uid u) by done. constructor. }
    destruct (save_fault form) as [msg|] eqn:Hs.
    + rewrite (upload_file_save_fails form now db uid u filename msg) by done.
      constructor.
    + rewrite (upload_file_stored form now db uid u filename) by done.
      constructor. by eexists.
  - destruct (truthy (HEYGEN_API_KEY cfg)) eqn:Hk.
    2: { rewrite start_translation_unconfigured by done. constructor. }
    destruct data as [d|].
    2: { rewrite start_translation_keys_required by done. constructor. }
    destruct (present (job_id d) && present (target_language d)) eqn:Hp.
    2: { rewrite start_translation_keys_required by done. constructor. }
    apply andb_true_iff in Hp as [Hj Hl].
    destruct (field_get (job_id d)) as [id|] eqn:Hid.
    2: { rewrite start_translation_not_found; try done; [constructor|].
         by rewrite Hid. }
    destruct (jobs db !! id) as [job|] eqn:Hjob.
    2: { destruct (sqlite_integer id) eqn:Hrange.
         - rewrite start_translation_not_found; try done; [constructor|].
           by rewrite Hid.
         - by rewrite (start_translation_overflow cfg d fault db id). }
    destruct (decide (TranslationJob.status job = "uploaded")) as [Hs|Hs].
    + rewrite (start_translation_uploaded cfg d fault db id job Hk Hid Hl Hjob Hs).
      destruct fault; simpl; [done|by constructor].
    + rewrite (start_translation_not_uploaded cfg d fault db id job) by done.
      constructor.
Qed.

(** One route request and one row of the job table. *)
Lemma route_step_job db db' i job :
  route_step db db' → jobs db !! i = Some job →
  jobs db' !! i = Some job
  ∨ (TranslationJob.status job = "uploaded"
     ∧ ∃ tl, jobs db' !! i = Some (started tl job)).
Proof.
  intros [|e now _|uid f now _|id j tl Hj Hs] Hi; simpl.
  1-2: by left.
  - left. rewrite lookup_insert_ne; [done|].
    intros <-. by rewrite next_id_fresh in Hi.
  - destruct (decide (i = id)) as [->|Hne].
    + simplify_eq. right. split; [done|]. exists tl.
      by rewrite lookup_insert_eq.
    + left. by rewrite lookup_insert_ne.
Qed.

Lemma final_db_cons cfg req reqs db :
  final_db cfg (req :: reqs) db = final_db cfg reqs (final_db cfg [req] db).
Proof.
  rewrite final_db_single. unfold final_db. simpl.
  destruct (handle cfg req db) as [[r db1] l1]. simpl.
  by destruct (run cfg reqs db1) as [[rs db2] l2].
Qed.

(** X11: the routes of the application never finish a job and never touch
    a job that has left uploaded.  Whatever requests are sent to the routes,
    a job whose status is not uploaded keeps its row unchanged (a processing
    job stays processing, a failed job stays failed and cannot be retried),
    and a job that is uploaded can only stay as it is or become processing
    or failed. *)
Theorem routes_freeze_started_jobs
    (cfg : Config) (reqs : list request) (db : Database)
    (id : Z) (job : TranslationJob.t) :
  Forall (λ req, is_route req = true) reqs →
  jobs db !! id = Some job →
  (TranslationJob.status job ≠ "uploaded" →
   jobs (final_db cfg reqs db) !! id = Some job)
  ∧ (TranslationJob.status job = "uploaded" →
     ∃ job',
       jobs (final_db cfg reqs db) !! id = Some job'
       ∧ TranslationJob.status job' ∈ ["uploaded"; "processing"; "failed"]).
Proof.
  intros Hall. revert db job.
  induction Hall as [|req reqs Hr _ IH]; intros db job Hjob.
  - split; [done|]. intros Hs. exists job. split; [done|].
    rewrite Hs. repeat constructor.
  - rewrite final_db_cons.
    pose proof (route_step_of_handle cfg req db Hr) as Hstep.
    rewrite <- final_db_single in Hstep.
    destruct (route_step_job _ _ id job Hstep Hjob)
      as [Hsame|(Hs & tl & Hnew)].
    + apply (IH _ _ Hsame).
    + split; [done|]. intros _. exists (started tl job).
      split; [by apply (IH _ _ Hnew)|]. simpl. repeat constructor.
Qed.

Lemma routes_freeze_started_jobs_witness :
  jobs (final_db cfg_with_key
          [POST_translate (Some (mkTranslate (Value 1) (Value "fr"))) None;
           POST_upload (mkUpload (Some 1) (Some "b.mp4") None) "t3";
           GET_job 1]
          db_processing) !! 1
  = Some (TranslationJob.mk 1 "clip.mp4" (Some "es") "processing" "t1").
Proof.
  apply (proj1 (routes_freeze_started_jobs cfg_with_key
                  [POST_translate (Some (mkTranslate (Value 1) (Value "fr")))
                     None;
                   POST_upload (mkUpload (Some 1) (Some "b.mp4") None) "t3";
                   GET_job 1]
                  db_processing 1
                  (TranslationJob.mk 1 "clip.mp4" (Some "es") "processing" "t1")
                  ltac:(repeat constructor) eq_refl)).
  discriminate.
Defined.

(** X12: no request, to a route or from the provider, deletes or changes an
    account, and none deletes a job or changes its owner, its original
    filename or its creation time. *)
Theorem rows_are_kept (cfg : Config) (reqs : list request) (db : Database) :
  (∀ id u, users db !! id = Some u →
           users (final_db cfg reqs db) !! id = Some u)
  ∧ (∀ id job,
       jobs db !! id = Some job →
       ∃ job',
         jobs (final_db cfg reqs db) !! id = Some job'
         ∧ TranslationJob.user_id job' = TranslationJob.user_id job
         ∧ TranslationJob.original_filename job'
           = TranslationJob.original_filename job
         ∧ TranslationJob.created_at job' = TranslationJob.created_at job).
Proof.
  pose proof (run_steps cfg reqs db) as Hrun.
  induction Hrun as [db|db l1 db1 l2 db2 H1 _ IH].
  - split; [done|]. intros id job H. by exists job.
  - destruct IH as [IHu IHj]. split.
    + intros id u Hu. apply IHu.
      destruct H1 as [|e now _|uid f now _|i j tl _ _|i j o _ _];
        simpl; try done.
      rewrite lookup_insert_ne; [done|].
      intros <-. by rewrite next_id_fresh in Hu.
    + intros id job Hjob.
      pose proof (db_step_row db l1 db1 id H1) as Hrow. rewrite Hjob in Hrow.
      destruct Hrow as [Hsame|(job1 & Hjob1 & Hm)]; [by apply IHj|].
      destruct (IHj id job1 Hjob1) as (job' & Hjob' & Hu & Hf & Hc).
      exists job'. split; [done|].
      rewrite Hu, Hf, Hc. by destruct Hm.
Qed.

(** ** Owners and primary keys *)

Lemma db_step_jobs_have_owners db l db' :
  db_step db l db' → jobs_have_owners db → jobs_have_owners db'.
Proof.
  intros Hstep Hinv i job' Hi.
  destruct Hstep as [|e now _|uid f now Hsome|id j tl Hj _|id j o Hj _];
    simpl in *.
  - by eapply Hinv.
  - destruct (Hinv i job' Hi) as [u Hu]. exists u.
    rewrite lookup_insert_ne; [done|].
    intros E. by rewrite <- E, next_id_fresh in Hu.
  - destruct (decide (i = next_id (jobs db))) as [->|Hne].
    + rewrite lookup_insert_eq in Hi. by simplify_eq/=.
    + rewrite lookup_insert_ne in Hi by done. by eapply Hinv.
  - destruct (decide (i = id)) as [->|Hne].
    + rewrite lookup_insert_eq in Hi. simplify_eq/=. by apply (Hinv id j).
    + rewrite lookup_insert_ne in Hi by done. by eapply Hinv.
  - destruct (decide (i = id)) as [->|Hne].
    + rewrite lookup_insert_eq in Hi. simplify_eq/=. by apply (Hinv id j).
    + rewrite lookup_insert_ne in Hi by done. by eapply Hinv.
Qed.

Lemma db_steps_jobs_have_owners db l db' :
  db_steps db l db' → jobs_have_owners db → jobs_have_owners db'.
Proof. induction 1; eauto using db_step_jobs_have_owners. Qed.

(** X13: in every database reached from the empty one, the user_id of every
    job is the id of an existing account: an upload is accepted only for an
    account that exists, and accounts are never removed. *)
Theorem every_job_has_an_owner (cfg : Config) (reqs : list request) :
  ∀ id job,
    jobs (final_db cfg reqs empty_db) !! id = Some job →
    is_Some (users (final_db cfg reqs empty_db) !! TranslationJob.user_id job).
Proof.
  eapply db_steps_jobs_have_owners; [apply run_steps|].
  intros id job H. done.
Qed.

Lemma every_job_has_an_owner_witness :
  is_Some
    (users (final_db cfg_with_key
              [POST_users (Some (Value "ana@example.org")) "t0";
               POST_upload (mkUpload (Some 1) (Some "clip.mp4") None) "t1"]
              empty_db)
       !! TranslationJob.user_id (new_job 1 "clip.mp4" "t1")).
Proof.
  apply (every_job_has_an_owner cfg_with_key
           [POST_users (Some (Value "ana@example.org")) "t0";
            POST_upload (mkUpload (Some 1) (Some "clip.mp4") None) "t1"]
           1 (new_job 1 "clip.mp4" "t1")).
  vm_compute. reflexivity.
Defined.

Lemma foldr_max_zero_or_elem (l : list Z) :
  foldr Z.max 0 l = 0 ∨ foldr Z.max 0 l ∈ l.
Proof.
  induction l as [|x l IH]; simpl; [by left|].
  destruct (Z.max_spec x (foldr Z.max 0 l)) as [[_ ->]|[_ ->]].
  - destruct IH as [IH|IH]; [by left|]. right. by apply list_elem_of_further.
  - right. apply list_elem_of_here.
Qed.

Lemma max_key_consecutive {A} (m : gmap Z A) :
  consecutive_keys m → max_key m = Z.of_nat (size m).
Proof.
  intros Hc. apply Z.le_antisymm.
  - destruct (foldr_max_zero_or_elem (map fst (map_to_list m))) as [H|H];
      unfold max_key; [lia|].
    apply list_elem_of_fmap in H as ([k v] & Hk & Hin). simpl in Hk.
    apply elem_of_map_to_list in Hin.
    rewrite Hk. destruct (proj1 (Hc k)); [by eexists|lia].
  - destruct (size m) as [|n] eqn:E.
    + unfold max_key. induction (map fst (map_to_list m)); simpl; lia.
    + destruct (proj2 (Hc (Z.of_nat (S n)))) as [v Hv]; [lia|].
      by apply max_key_ge in Hv.
Qed.

Lemma consecutive_insert_next {A} (m : gmap Z A) (x : A) :
  consecutive_keys m → consecutive_keys (<[next_id m := x]> m).
Proof.
  intros Hc k. rewrite map_size_insert_None by apply next_id_fresh.
  unfold next_id. rewrite (max_key_consecutive m Hc).
  rewrite lookup_insert_is_Some, (Hc k).
  destruct (decide (1 + Z.of_nat (size m) = k)); split; intros; lia.
Qed.

Lemma consecutive_insert_existing {A} (m : gmap Z A) (k : Z) (x y : A) :
  m !! k = Some y → consecutive_keys m → consecutive_keys (<[k := x]> m).
Proof.
  intros Hk Hc i. rewrite map_size_insert_Some by done.
  rewrite lookup_insert_is_Some, <- (Hc i). split.
  - intros [<-|[_ ?]]; [by eexists|done].
  - intros Hi. destruct (decide (k = i)); [by left|by right].
Qed.

Lemma db_step_consecutive db l db' :
  db_step db l db' →
  consecutive_keys (users db) ∧ consecutive_keys (jobs db) →
  consecutive_keys (users db') ∧ consecutive_keys (jobs db').
Proof.
  intros [|e now _|uid f now _|id j tl Hj _|id j o Hj _] [Hu Hjs];
    simpl; (split; [try done|try done]).
  - by apply consecutive_insert_next.
  - by apply consecutive_insert_next.
  - by eapply consecutive_insert_existing.
  - by eapply consecutive_insert_existing.
Qed.

Lemma db_steps_consecutive db l db' :
  db_steps db l db' →
  consecutive_keys (users db) ∧ consecutive_keys (jobs db) →
  consecutive_keys (users db') ∧ consecutive_keys (jobs db').
Proof. induction 1; eauto using db_step_consecutive. Qed.

(** X14: primary keys are handed out as 1, 2, 3, ...: in every database
    reached from the empty one, the ids of the accounts are exactly the
    numbers from 1 to the number of accounts, the ids of the jobs exactly
    those from 1 to the number of jobs, and the next account or job gets the
    number after that. *)
Theorem primary_keys_are_consecutive (cfg : Config) (reqs : list request) :
  let db := final_db cfg reqs empty_db in
  (∀ k, is_Some (users db !! k) ↔ 1 ≤ k ≤ Z.of_nat (size (users db)))
  ∧ (∀ k, is_Some (jobs db !! k) ↔ 1 ≤ k ≤ Z.of_nat (size (jobs db)))
  ∧ next_id (users db) = 1 + Z.of_nat (size (users db))
  ∧ next_id (jobs db) = 1 + Z.of_nat (size (jobs db)).
Proof.
  intros db.
  assert (consecutive_keys (users db) ∧ consecutive_keys (jobs db)) as [Hu Hj].
  { eapply db_steps_consecutive; [apply run_steps|].
    split; intros k; simpl; rewrite lookup_empty, map_size_empty;
      (split; [by intros [? ?]|lia]). }
  split; [done|]. split; [done|].
  unfold next_id. by rewrite !max_key_consecutive.
Qed.

(** ** Answers that agree with later reads *)

(** X15: the job that an accepted POST /api/upload returns is the job that
    GET /api/jobs/<id> returns right afterwards under the id of the answer:
    status uploaded, no target language, the uploader as owner. *)
Theorem upload_then_get_job
    (form : upload_form) (now : string) (db : Database)
    (uid : Z) (filename : string) :
  form_user_id form = Some uid → is_Some (users db !! uid) →
  form_file form = Some filename → filename ≠ "" →
  save_fault form = None →
  let res := upload_file form now db in
  let id := next_id (jobs db) in
  let job := TranslationJob.to_dict id
               (TranslationJob.mk uid filename None "uploaded" now) in
  res.1.1 = Ok (jsonify [
                  ("message", JStr "File uploaded successfully!");
                  ("job", job);
                  ("filename", JStr filename);
                  ("next_step", JStr "Use /api/translate to start translation")],
                201)
  ∧ get_job_status id res.1.2 = (Ok (jsonify [("job", job)], 200), res.1.2, []).
Proof.
  intros Hu [u Hsome] Hf Hne Hs res id job. subst res.
  rewrite (upload_file_stored form now db uid u filename) by done.
  split; [done|]. simpl. unfold get_job_status. unfold_M. simpl.
  by rewrite lookup_insert_eq.
Qed.

Lemma upload_then_get_job_witness :
  get_job_status 2
    (upload_file (mkUpload (Some 1) (Some "talk.mov") None) "t2"
       db_one_upload).1.2
  = (Ok (jsonify [("job", TranslationJob.to_dict 2
                            (TranslationJob.mk 1 "talk.mov" None "uploaded"
                               "t2"))], 200),
     (upload_file (mkUpload (Some 1) (Some "talk.mov") None) "t2"
        db_one_upload).1.2, []).
Proof.
  apply (upload_then_get_job (mkUpload (Some 1) (Some "talk.mov") None) "t2"
           db_one_upload 1 "talk.mov");
    [reflexivity|vm_compute; eauto|reflexivity|discriminate|reflexivity].
Defined.

(** X16: the job in the 200 answer of an accepted POST /api/translate
    (status processing, the requested target language, the other columns
    as they were) is the job that GET /api/jobs/<id> returns right
    afterwards. *)
Theorem start_translation_then_get_job
    (cfg : Config) (db : Database) (id : Z) (job : TranslationJob.t)
    (lang : field string) :
  truthy (HEYGEN_API_KEY cfg) = true →
  present lang = true →
  jobs db !! id = Some job →
  TranslationJob.status job = "uploaded" →
  let res :=
    start_translation cfg (Some (mkTranslate (Value id) lang)) None db in
  let job' :=
    JObj [("id", JInt id);
          ("user_id", JInt (TranslationJob.user_id job));
          ("original_filename", JStr (TranslationJob.original_filename job));
          ("target_language", json_of_opt_string (field_get lang));
          ("status", JStr "processing");
          ("created_at", JStr (TranslationJob.created_at job))] in
  res.1.1 = Ok (jsonify [
                  ("message", JStr "Translation started successfully!");
                  ("job", job');
                  ("status", JStr "processing");
                  ("target_language", json_of_opt_string (field_get lang));
                  ("note", JStr "Currently simulated - real HeyGen integration ready for your API key")],
                200)
  ∧ get_job_status id res.1.2 = (Ok (jsonify [("job", job')], 200), res.1.2, []).
Proof.
  intros Hk Hl Hjob Hs res job'. subst res.
  rewrite (start_translation_uploaded cfg (mkTranslate (Value id) lang)
             None db id job Hk eq_refl Hl Hjob Hs).
  split; [done|]. simpl.
  unfold get_job_status. unfold_M. simpl. by rewrite lookup_insert_eq.
Qed.

Lemma start_translation_then_get_job_witness :
  get_job_status 1
    (start_translation cfg_with_key
       (Some (mkTranslate (Value 1) (Value "es"))) None db_one_upload).1.2
  = (Ok (jsonify [("job", TranslationJob.to_dict 1
                            (TranslationJob.mk 1 "clip.mp4" (Some "es")
                               "processing" "t1"))], 200),
     (start_translation cfg_with_key
        (Some (mkTranslate (Value 1) (Value "es"))) None db_one_upload).1.2,
     []).
Proof.
  apply (start_translation_then_get_job cfg_with_key db_one_upload 1
           (new_job 1 "clip.mp4" "t1") (Value "es"));
    vm_compute; reflexivity.
Defined.

(** ** Where uploaded files go *)

(** X17: the path a file is saved under depends on its filename alone
    (uploads/<filename>, or the filename itself when it starts with "/"):
    two accepted uploads of the same filename, by any accounts, save to one
    and the same path although they create two different jobs. *)
Theorem same_filename_same_path
    (form1 form2 : upload_form) (now1 now2 : string) (db : Database)
    (uid1 uid2 : Z) (filename : string) :
  form_user_id form1 = Some uid1 → is_Some (users db !! uid1) →
  form_user_id form2 = Some uid2 → is_Some (users db !! uid2) →
  form_file form1 = Some filename → form_file form2 = Some filename →
  filename ≠ "" →
  save_fault form1 = None → save_fault form2 = None →
  let first := upload_file form1 now1 db in
  let second := upload_file form2 now2 first.1.2 in
  let p := if String.prefix "/" filename then filename
           else "uploads/" +:+ filename in
  let id1 := next_id (jobs db) in
  let id2 := next_id (jobs first.1.2) in
  List.filter is_file_save (first.2 ++ second.2) = [EvFileSave p; EvFileSave p]
  ∧ id1 ≠ id2
  ∧ jobs second.1.2 !! id1 = Some (new_job uid1 filename now1)
  ∧ jobs second.1.2 !! id2 = Some (new_job uid2 filename now2).
Proof.
  intros Hu1 [u1 Hs1] Hu2 [u2 Hs2] Hf1 Hf2 Hne Hsv1 Hsv2.
  intros first second p id1 id2. subst second id2 first.
  rewrite (upload_file_stored form1 now1 db uid1 u1 filename) by done.
  cbn [fst snd].
  rewrite (upload_file_stored form2 now2 _ uid2 u2 filename) by done.
  cbn [fst snd].
  assert (id1 ≠ next_id (jobs (with_job db id1 (new_job uid1 filename now1))))
    as Hneq.
  { intros E.
    pose proof (next_id_fresh (jobs (with_job db id1
                                        (new_job uid1 filename now1)))) as Hf.
    rewrite <- E in Hf. simpl in Hf. by rewrite lookup_insert_eq in Hf. }
  split; [done|]. split; [done|]. split.
  - simpl. rewrite lookup_insert_ne by done. by rewrite lookup_insert_eq.
  - simpl. by rewrite lookup_insert_eq.
Qed.

Lemma same_filename_same_path_witness :
  List.filter is_file_save
    ((upload_file (mkUpload (Some 1) (Some "clip.mp4") None) "t2"
        db_one_upload).2
     ++ (upload_file (mkUpload (Some 1) (Some "clip.mp4") None) "t3"
           (upload_file (mkUpload (Some 1) (Some "clip.mp4") None) "t2"
              db_one_upload).1.2).2)
  = [EvFileSave "uploads/clip.mp4"; EvFileSave "uploads/clip.mp4"].
Proof.
  apply (same_filename_same_path
           (mkUpload (Some 1) (Some "clip.mp4") None)
           (mkUpload (Some 1) (Some "clip.mp4") None) "t2" "t3"
           db_one_upload 1 1 "clip.mp4");
    first [reflexivity | discriminate | vm_compute; eauto].
Defined.

(** ** The key gate and the status routes *)

(** X18: the routes / and /api/test tell the truth about the key gate of
    /api/translate: they report heygen_configured as false exactly when
    every translate request is answered with the configuration error, and
    as true exactly when no translate request is. *)
Theorem configured_flag_matches_gate
    (cfg : Config) (now : string) (db : Database) :
  ∃ b other1 other2,
    (home cfg db).1.1
    = Ok (jsonify (("message",
                    JStr "Video Translator API with HeyGen Integration!")
                   :: ("status", JStr "working")
                   :: ("heygen_configured", JBool b) :: other1), 200)
    ∧ (test cfg now db).1.1
      = Ok (jsonify (("status", JStr "success")
                     :: ("message",
                         JStr "HeyGen video translation API is ready!")
                     :: ("heygen_api_configured", JBool b) :: other2), 200)
    ∧ ∀ data fault db',
        (start_translation cfg data fault db').1.1 = Ok not_configured
        ↔ b = false.
Proof.
  exists (truthy (HEYGEN_API_KEY cfg)). do 2 eexists.
  split; [done|]. split; [done|].
  intros data fault db'. split.
  - intros E. destruct (truthy (HEYGEN_API_KEY cfg)) eqn:Hk; [|done].
    exfalso. revert E.
    destruct data as [d|].
    2: { by rewrite start_translation_keys_required. }
    destruct (present (job_id d) && present (target_language d)) eqn:Hp.
    2: { by rewrite start_translation_keys_required. }
    apply andb_true_iff in Hp as [Hj Hl].
    destruct (field_get (job_id d)) as [id|] eqn:Hid.
    2: { rewrite start_translation_not_found; try done. by rewrite Hid. }
    destruct (jobs db' !! id) as [job|] eqn:Hjob.
    2: { destruct (sqlite_integer id) eqn:Hrange.
         - rewrite start_translation_not_found; try done. by rewrite Hid.
         - by rewrite (start_translation_overflow cfg d fault db' id). }
    destruct (decide (TranslationJob.status job = "uploaded")) as [Hs|Hs].
    + rewrite (start_translation_uploaded cfg d fault db' id job Hk Hid Hl
                 Hjob Hs).
      by destruct fault.
    + by rewrite (start_translation_not_uploaded cfg d fault db' id job).
  - intros Hk. by rewrite start_translation_unconfigured.
Qed.

(** ** What an answer says about what was done *)







(** ** A new account in the list *)

(** X19: after POST /api/users has created an account, GET /api/users
    counts one account more than before and lists the account exactly as
    the creation answered it. *)
Theorem create_user_then_listed (e now : string) (db : Database) :
  (∀ i u, users db !! i = Some u → User.email u ≠ e) →
  let res := create_user (Some (Value e)) now db in
  ∃ user entries,
    res.1.1 = Ok (jsonify [("message", JStr "User created successfully");
                           ("user", user)], 201)
    ∧ get_users res.1.2
      = (Ok (jsonify [("users", JList entries);
                      ("count", JInt (1 + Z.of_nat (size (users db))))], 200),
         res.1.2, [])
    ∧ user ∈ entries.
Proof.
  intros Hnone res. subst res. apply find_by_email_None in Hnone.
  rewrite create_user_new by done. simpl.
  do 2 eexists. split; [done|].
  unfold get_users. unfold_M. simpl. rewrite length_query_all.
  rewrite map_size_insert_None by apply next_id_fresh.
  split.
  - replace (Z.of_nat (S (size (users db))))
      with (1 + Z.of_nat (size (users db))) by lia.
    reflexivity.
  - apply list_elem_of_fmap. exists (next_id (users db), User.mk e now).
    split; [done|]. apply elem_of_query_all. by rewrite lookup_insert_eq.
Qed.

Lemma create_user_then_listed_witness :
  ∃ user entries,
    (create_user (Some (Value "bo@example.org")) "t5" empty_db).1.1
    = Ok (jsonify [("message", JStr "User created successfully");
                   ("user", user)], 201)
    ∧ get_users (create_user (Some (Value "bo@example.org")) "t5" empty_db).1.2
      = (Ok (jsonify [("users", JList entries);
                      ("count", JInt (1 + Z.of_nat (size (users empty_db))))],
             200),
         (create_user (Some (Value "bo@example.org")) "t5" empty_db).1.2, [])
    ∧ user ∈ entries.
Proof.
  apply (create_user_then_listed "bo@example.org" "t5" empty_db).
  intros i u Hi. simpl in Hi. by rewrite lookup_empty in Hi.
Defined.

(** ** Two requests at once *)

(** Served without interruption, the two halves are the handler. *)
Lemma start_translation_in_two_eq cfg data fault db :
  start_translation_in_two cfg data fault db
  = start_translation cfg data fault db.
Proof.
  unfold start_translation_in_two, start_translation_read,
    start_translation_finish, start_translation_write, start_translation.
  destruct (truthy (HEYGEN_API_KEY cfg)); [|done]. simpl.
  destruct data as [d|]; [|done].
  destruct (present (job_id d)), (present (target_language d)); try done.
  simpl. unfold_M.
  destruct (field_get (job_id d)) as [id|]; [|done].
  destruct (jobs db !! id) as [job|] eqn:Hjob.
  2: { by destruct (sqlite_integer id). }
  simpl. case_bool_decide as Hs; [|done]. simpl.
  rewrite Hjob. simpl. rewrite !lookup_insert_eq. simpl.
  destruct fault as [e|]; simpl;
    repeat (rewrite ?lookup_insert_eq, ?insert_insert_eq; simpl); done.
Qed.

(** C7 does not hold of the code: nothing keeps a second request from
    testing the status while a first one stands between its test and its
    write.  When two requests for the same uploaded job overlap in that way,
    both find the job uploaded, both are answered 200, the status leaves
    uploaded twice and the target language is written twice; the job keeps
    the language of the request that wrote last. *)
Lemma overlapping_requests_both_start :
  jobs db_one_upload !! 1
  = Some (TranslationJob.mk 1 "clip.mp4" None "uploaded" "t1")
  ∧ start_translation_overlapping cfg_with_key
      (Some (mkTranslate (Value 1) (Value "es")))
      (Some (mkTranslate (Value 1) (Value "fr"))) None None db_one_upload
    = (Ok (translation_started 1 (Some "es")
             (TranslationJob.mk 1 "clip.mp4" (Some "es") "processing" "t1"),
           translation_started 1 (Some "fr")
             (TranslationJob.mk 1 "clip.mp4" (Some "fr") "processing" "t1")),
       mkDatabase (users db_one_upload)
         {[1 := TranslationJob.mk 1 "clip.mp4" (Some "fr") "processing" "t1"]},
       [EvSetStatus 1 "uploaded" "processing";
        EvSetTargetLanguage 1 None (Some "es");
        EvCommit;
        EvSetStatus 1 "uploaded" "processing";
        EvSetTargetLanguage 1 None (Some "fr");
        EvCommit])
  ∧ (translation_started 1 (Some "es")
       (TranslationJob.mk 1 "clip.mp4" (Some "es") "processing" "t1")).2 = 200
  ∧ (translation_started 1 (Some "fr")
       (TranslationJob.mk 1 "clip.mp4" (Some "fr") "processing" "t1")).2 = 200.
Proof. repeat split; vm_compute; reflexivity. Qed.

(** ** Job ids that SQLite cannot hold *)

(** X20: a job id of 2^63 or more, which no job has, makes the lookup
    raise before the handler tests anything about the job: both
    GET /api/jobs/<id> and, with the key configured and both keys present,
    POST /api/translate are answered with Flask's 500 page instead of 404
    "Job not found"; nothing is changed and nothing is done. *)
Theorem job_id_out_of_range_is_an_internal_error
    (cfg : Config) (db : Database) (id : Z) (lang : field string)
    (fault : option string) :
  2 ^ 63 ≤ id →
  jobs db !! id = None →
  handle cfg (GET_job id) db
  = (Ok (Http (JStr "Internal Server Error", 500)), db, [])
  ∧ (truthy (HEYGEN_API_KEY cfg) = true → present lang = true →
     handle cfg (POST_translate (Some (mkTranslate (Value id) lang)) fault) db
     = (Ok (Http (JStr "Internal Server Error", 500)), db, [])).
Proof.
  intros Hid Hjob.
  assert (sqlite_integer id = false) as Hr.
  { unfold sqlite_integer. apply andb_false_iff. right. apply Z.ltb_ge. lia. }
  split.
  - cbn [handle]. rewrite bool_decide_eq_true_2 by lia.
    unfold view, get_job_status. unfold_M. by rewrite Hjob, Hr.
  - intros Hk Hl. cbn [handle]. unfold view.
    by rewrite (start_translation_overflow cfg (mkTranslate (Value id) lang)
                  fault db id).
Qed.

Lemma job_id_out_of_range_is_an_internal_error_witness :
  handle cfg_with_key (GET_job 9223372036854775808) db_one_upload
  = (Ok (Http (JStr "Internal Server Error", 500)), db_one_upload, []).
Proof.
  apply (proj1 (job_id_out_of_range_is_an_internal_error cfg_with_key
                  db_one_upload 9223372036854775808 (Value "es") None
                  ltac:(vm_compute; discriminate)
                  ltac:(vm_compute; reflexivity))).
Defined.

(** ** A commit that fails *)

(** X21: when the commit of an accepted POST /api/translate raises,
    whatever the error, the request leaves no trace: the answer is Flask's
    500 page, not the JSON error of the except branch, the database is as
    it was, so the job is still uploaded, and the same request served
    again with a commit that succeeds is carried out as a first one. *)
Theorem failed_commit_is_rolled_back
    (cfg : Config) (db : Database) (id : Z) (job : TranslationJob.t)
    (lang : field string) (e : string) :
  truthy (HEYGEN_API_KEY cfg) = true →
  present lang = true →
  jobs db !! id = Some job →
  TranslationJob.status job = "uploaded" →
  let req fault := POST_translate (Some (mkTranslate (Value id) lang)) fault in
  handle cfg (req (Some e)) db
  = (Ok (Http (JStr "Internal Server Error", 500)), db, [])
  ∧ final_db cfg [req (Some e); req None] db = final_db cfg [req None] db
  ∧ (∃ job', jobs (final_db cfg [req None] db) !! id = Some job'
             ∧ TranslationJob.status job' = "processing").
Proof.
  intros Hk Hl Hjob Hs req.
  assert (handle cfg (req (Some e)) db
          = (Ok (Http (JStr "Internal Server Error", 500)), db, [])) as E.
  { unfold req. cbn [handle]. unfold view.
    by rewrite (start_translation_uploaded cfg (mkTranslate (Value id) lang)
                  (Some e) db id job Hk eq_refl Hl Hjob Hs). }
  split; [exact E|]. split.
  - by rewrite final_db_cons, (final_db_single cfg (req (Some e))), E.
  - rewrite final_db_single. unfold req. cbn [handle]. unfold view.
    rewrite (start_translation_uploaded cfg (mkTranslate (Value id) lang)
               None db id job Hk eq_refl Hl Hjob Hs).
    simpl. eexists. split; [apply lookup_insert_eq|done].
Qed.

Lemma failed_commit_is_rolled_back_witness :
  handle cfg_with_key
    (POST_translate (Some (mkTranslate (Value 1) (Value "de")))
       (Some "disk I/O error")) db_one_upload
  = (Ok (Http (JStr "Internal Server Error", 500)), db_one_upload, []).
Proof.
  apply (proj1 (failed_commit_is_rolled_back cfg_with_key db_one_upload 1
                  (TranslationJob.mk 1 "clip.mp4" None "uploaded" "t1")
                  (Value "de") "disk I/O error"
                  ltac:(reflexivity) ltac:(reflexivity)
                  ltac:(vm_compute; reflexivity) ltac:(reflexivity))).
Defined.
